(** * Login with temporary lock-out: a model of [crud-senai-api]

    Shallow embedding of
    - [src/services/auth.service.js]   ([loginWithLock], [nowPlusMinutes]),
    - [src/middlewares/auth.middleware.js] ([requireAuth]),
    - [src/routes/auth.routes.js]      (the [/login] and [/me] handlers),
    - [src/services/users.service.js]  ([getUserById], [createUser],
      [updateUser], [updateUserStatus]),
    - [requireAdmin] of [role.middleware.js] and the guarded routes of
      [src/routes/users.routes.js],
    - [validateEmail] of the front end's [utils.js].

    The asynchronous JavaScript code is written once, as a program over the
    operations it performs on its collaborators (the MySQL pool, [bcrypt],
    the clock and [jsonwebtoken]).  The program is run against a world
    either to completion ([run], one request served alone) or one operation
    at a time ([step], [exec]: requests overlapping at their [await]s).

    What the model takes for granted:
    - the collaborators answer: a query that fails or a signing call that
      throws is an exception the route hands to the error middleware, and is
      not modelled;
    - [WHERE email = ?] is exact equality on the normalised email the
      validator produces, and a [DATETIME] column gives back the instant that
      was written to it;
    - [MAX_LOGIN_ATTEMPTS] and [LOCK_MINUTES] hold integers;
    - a request served alone reads one and the same instant from the clock
      each time it asks; between the operations of overlapping requests time
      may pass ([Tick]). *)

From Stdlib Require Import ZArith List String Ascii Bool Lia DecimalString.
Import ListNotations.

Open Scope string_scope.
Open Scope Z_scope.
Open Scope list_scope.

(** ** JavaScript values *)

(** The fragment of JavaScript values that occurs in token payloads and in
    JSON response bodies.  An object is its list of own properties, in
    insertion order. *)
#[local] Unset Elimination Schemes.
Inductive JsVal : Type :=
| JUndefined
| JNull
| JBool (b : bool)
| JNum (n : Z)
| JStr (s : string)
| JObj (props : list (string * JsVal)).
#[local] Set Elimination Schemes.

(** [o[key]] on an object: [undefined] when the property is missing. *)
Fixpoint js_prop (props : list (string * JsVal)) (key : string) : JsVal :=
  match props with
  | [] => JUndefined
  | (k, v) :: rest => if String.eqb k key then v else js_prop rest key
  end.

Definition js_get (o : JsVal) (key : string) : JsVal :=
  match o with
  | JObj props => js_prop props key
  | _ => JUndefined
  end.

(** [key in o] for own properties. *)
Definition js_has (o : JsVal) (key : string) : bool :=
  match o with
  | JObj props => existsb (fun kv => String.eqb (fst kv) key) props
  | _ => false
  end.

(** [String(n)] for an integer [n]. *)
Definition js_String (n : Z) : string := NilZero.string_of_int (Z.to_int n).

(** [x || 0] for a numeric column that may be SQL [NULL]. *)
Definition js_or0 (x : option Z) : Z :=
  match x with
  | Some n => n
  | None => 0
  end.

(** [s || d] for a string that may be [undefined]: the empty string is falsy
    too. *)
Definition js_or_str (s : option string) (d : string) : string :=
  match s with
  | None => d
  | Some EmptyString => d
  | Some v => v
  end.

(** ** The [users] table *)

(** A row of [users], with the columns [loginWithLock] selects.  Timestamps
    are milliseconds since the epoch, as [Date] holds them; [NULL] is
    [None]. *)
Record User : Type := mkUser {
  id : Z;
  name : string;
  email : string;
  password_hash : string;
  profile : string;
  status : string;
  failed_attempts : option Z;
  locked_until : option Z
}.

Definition Table : Type := list User.

(** [SELECT ... FROM users WHERE email = ? LIMIT 1]: at most one row, the first
    that matches. *)
Definition select_by_email (e : string) (t : Table) : list User :=
  match find (fun u => String.eqb (email u) e) t with
  | Some u => [u]
  | None => []
  end.

(** [UPDATE users SET ... WHERE id = ?]: every row with that id, in place. *)
Definition update_by_id (uid : Z) (f : User -> User) (t : Table) : Table :=
  map (fun u => if id u =? uid then f u else u) t.

Definition set_fails_and_lock (fails until : Z) (u : User) : User :=
  mkUser (id u) (name u) (email u) (password_hash u) (profile u) (status u)
         (Some fails) (Some until).

Definition set_fails (fails : Z) (u : User) : User :=
  mkUser (id u) (name u) (email u) (password_hash u) (profile u) (status u)
         (Some fails) (locked_until u).

Definition reset_fails_and_lock (u : User) : User :=
  mkUser (id u) (name u) (email u) (password_hash u) (profile u) (status u)
         (Some 0) None.

(** ** Configuration *)

(** The process environment.  A numeric variable is [None] when unset or
    empty (both falsy in [process.env.X || d]) and otherwise holds the
    integer [Number] reads from it. *)
Record Env : Type := mkEnv {
  env_MAX_LOGIN_ATTEMPTS : option Z;
  env_LOCK_MINUTES : option Z;
  env_JWT_SECRET : string;
  env_JWT_EXPIRES_IN : option string
}.

(** [const MAX = Number(process.env.MAX_LOGIN_ATTEMPTS || 3)] *)
Definition MAX (env : Env) : Z :=
  match env_MAX_LOGIN_ATTEMPTS env with
  | Some n => n
  | None => 3
  end.

(** [const LOCK_MINUTES = Number(process.env.LOCK_MINUTES || 5)] *)
Definition LOCK_MINUTES (env : Env) : Z :=
  match env_LOCK_MINUTES env with
  | Some n => n
  | None => 5
  end.

(** ** Programs over the collaborators *)

(** What [loginWithLock] returns: [{ ok: false, statusCode, message }] or
    [{ ok: true, statusCode, data: { token, user } }]. *)
Record PublicUser : Type := mkPublicUser {
  pu_id : Z;
  pu_name : string;
  pu_email : string;
  pu_profile : string
}.

Inductive LoginResult : Type :=
| Failure (statusCode : Z) (message : string)
| Success (statusCode : Z) (token : string) (user : PublicUser).

Definition statusCode_of (r : LoginResult) : Z :=
  match r with
  | Failure c _ => c
  | Success c _ _ => c
  end.

Definition ok_of (r : LoginResult) : bool :=
  match r with
  | Failure _ _ => false
  | Success _ _ _ => true
  end.

(** One operation on a collaborator, indexed by the type of its answer. *)
Inductive Op : Type -> Type :=
| SelectUserByEmail (e : string) : Op (list User)
| UpdateFailsAndLock (fails until uid : Z) : Op unit
| UpdateFails (fails uid : Z) : Op unit
| ResetFailsAndLock (uid : Z) : Op unit
| BcryptCompare (password hash : string) : Op bool
| DateNow : Op Z
| JwtSign (payload : JsVal) (secret expiresIn : string) : Op string.

Inductive Prog (A : Type) : Type :=
| Ret (a : A)
| Vis {X : Type} (op : Op X) (k : X -> Prog A).

Arguments Ret {A} a.
Arguments Vis {A X} op k.

Fixpoint bind {A B : Type} (p : Prog A) (f : A -> Prog B) : Prog B :=
  match p with
  | Ret a => f a
  | Vis op k => Vis op (fun x => bind (k x) f)
  end.

Definition call {X : Type} (op : Op X) : Prog X := Vis op Ret.

Notation "x <- p ;; q" := (bind p (fun x => q))
  (at level 61, p at next level, right associativity).
Notation "p ;;; q" := (bind p (fun _ => q))
  (at level 61, right associativity).

(** ** [auth.service.js] *)

(** [function nowPlusMinutes(min)]: [new Date(Date.now() + min * 60 * 1000)]. *)
Definition nowPlusMinutes (min : Z) : Prog Z :=
  now <- call DateNow ;;
  Ret (now + min * 60 * 1000).

(** The condition of the lock gate,
    [user.locked_until && new Date(user.locked_until) > new Date()], once the
    clock has been read. *)
Definition isLocked (now : Z) (lockedUntil : option Z) : bool :=
  match lockedUntil with
  | Some u => now <? u
  | None => false
  end.

(** The same condition as the code evaluates it: [&&] reads the clock only
    when [locked_until] is not [NULL]. *)
Definition lockGate (user : User) : Prog bool :=
  match locked_until user with
  | None => Ret false
  | Some u => now <- call DateNow ;; Ret (now <? u)
  end.

Definition invalidMsg : string := "Credenciais inválidas.".
Definition inactiveMsg : string := "Usuário inativo.".
Definition lockedMsg : string := "Usuário bloqueado temporariamente.".
Definition justLockedMsg : string := "3 tentativas incorretas. Usuário bloqueado.".

(** [Math.min((user.failed_attempts || 0) + 1, 255)] *)
Definition newFails_of (user : User) : Z :=
  Z.min (js_or0 (failed_attempts user) + 1) 255.

(** [{ sub: String(user.id), profile: user.profile }] *)
Definition token_payload (user : User) : JsVal :=
  JObj [("sub", JStr (js_String (id user))); ("profile", JStr (profile user))].

(** [{ id: user.id, name: user.name, email: user.email, profile: user.profile }] *)
Definition public_user (user : User) : PublicUser :=
  mkPublicUser (id user) (name user) (email user) (profile user).

Section Service.

Variable env : Env.

(** [export async function loginWithLock({ email, password })] *)
Definition loginWithLock (email password : string) : Prog LoginResult :=
  rows <- call (SelectUserByEmail email) ;;
  match rows with
  | [] => Ret (Failure 401 invalidMsg)
  | user :: _ =>
    if negb (String.eqb (status user) "ACTIVE") then
      Ret (Failure 403 inactiveMsg)
    else
      locked <- lockGate user ;;
      if locked then
        Ret (Failure 423 lockedMsg)
      else
        passOk <- call (BcryptCompare password (password_hash user)) ;;
        if negb passOk then
          let newFails := newFails_of user in
          if MAX env <=? newFails then
            lockedUntil <- nowPlusMinutes (LOCK_MINUTES env) ;;
            call (UpdateFailsAndLock newFails lockedUntil (id user)) ;;;
            Ret (Failure 423 justLockedMsg)
          else
            call (UpdateFails newFails (id user)) ;;;
            Ret (Failure 401 invalidMsg)
        else
          (if (0 <? js_or0 (failed_attempts user))
              || (match locked_until user with Some _ => true | None => false end)
           then call (ResetFailsAndLock (id user))
           else Ret tt) ;;;
          token <- call (JwtSign (token_payload user) (env_JWT_SECRET env)
                                 (js_or_str (env_JWT_EXPIRES_IN env) "1h")) ;;
          Ret (Success 200 token (public_user user))
  end.

(** ** The world the program runs in *)

(** The libraries are opaque capabilities: [bcrypt.compare(password, hash)]
    and [jwt.sign(payload, secret, { expiresIn })] at a given clock reading. *)
Variable bcrypt_compare : string -> string -> bool.
Variable jwt_sign : JsVal -> string -> string -> Z -> string.

Inductive Event : Type :=
| Called {X : Type} (op : Op X).

Record World : Type := mkWorld {
  db : Table;
  clock : Z;
  trace : list Event
}.

Definition logged {X : Type} (op : Op X) (t : Table) (w : World) : World :=
  mkWorld t (clock w) (trace w ++ [Called op]).

(** One operation, served atomically. *)
Definition handle {X : Type} (op : Op X) (w : World) : X * World :=
  match op in Op T return T * World with
  | SelectUserByEmail e =>
      (select_by_email e (db w), logged (SelectUserByEmail e) (db w) w)
  | UpdateFailsAndLock fails until uid =>
      (tt, logged (UpdateFailsAndLock fails until uid)
                  (update_by_id uid (set_fails_and_lock fails until) (db w)) w)
  | UpdateFails fails uid =>
      (tt, logged (UpdateFails fails uid)
                  (update_by_id uid (set_fails fails) (db w)) w)
  | ResetFailsAndLock uid =>
      (tt, logged (ResetFailsAndLock uid)
                  (update_by_id uid reset_fails_and_lock (db w)) w)
  | BcryptCompare password hash =>
      (bcrypt_compare password hash, logged (BcryptCompare password hash) (db w) w)
  | DateNow => (clock w, logged DateNow (db w) w)
  | JwtSign payload secret expiresIn =>
      (jwt_sign payload secret expiresIn (clock w),
       logged (JwtSign payload secret expiresIn) (db w) w)
  end.

(** A request served alone: every operation in turn, nothing in between. *)
Fixpoint run {A : Type} (p : Prog A) (w : World) : A * World :=
  match p with
  | Ret a => (a, w)
  | Vis op k => let (x, w') := handle op w in run (k x) w'
  end.

(** One operation of a request; a finished request stays as it is. *)
Definition step {A : Type} (p : Prog A) (w : World) : Prog A * World :=
  match p with
  | Ret a => (Ret a, w)
  | Vis op k => let (x, w') := handle op w in (k x, w')
  end.

(** Requests in flight together.  A schedule says which request performs its
    next operation, or lets time pass. *)
Inductive Action : Type :=
| Advance (i : nat)
| Tick (ms : N).

Fixpoint advance {A : Type} (i : nat) (ps : list (Prog A)) (w : World)
  : list (Prog A) * World :=
  match ps, i with
  | [], _ => ([], w)
  | p :: rest, O => let (p', w') := step p w in (p' :: rest, w')
  | p :: rest, S j => let (rest', w') := advance j rest w in (p :: rest', w')
  end.

Definition act {A : Type} (a : Action) (ps : list (Prog A)) (w : World)
  : list (Prog A) * World :=
  match a with
  | Advance i => advance i ps w
  | Tick ms => (ps, mkWorld (db w) (clock w + Z.of_N ms) (trace w))
  end.

Fixpoint exec {A : Type} (sched : list Action) (ps : list (Prog A)) (w : World)
  : list (Prog A) * World :=
  match sched with
  | [] => (ps, w)
  | a :: rest => let (ps', w') := act a ps w in exec rest ps' w'
  end.

(** The answer of a request, once it has finished. *)
Definition answer {A : Type} (p : Prog A) : option A :=
  match p with
  | Ret a => Some a
  | Vis _ _ => None
  end.

End Service.

(** ** [auth.middleware.js] and [auth.routes.js] *)

(** An HTTP response: [res.status(code).json(body)]. *)
Record Response : Type := mkResponse {
  res_status : Z;
  res_body : JsVal
}.

(** White space as [String.prototype.trim] sees it among the code units of a
    header value (one per byte): TAB, LF, VT, FF, CR, SP and NBSP. *)
Definition is_js_space (c : ascii) : bool :=
  match nat_of_ascii c with
  | 9%nat | 10%nat | 11%nat | 12%nat | 13%nat | 32%nat | 160%nat => true
  | _ => false
  end.

Fixpoint trimStart (s : string) : string :=
  match s with
  | EmptyString => EmptyString
  | String c rest => if is_js_space c then trimStart rest else s
  end.

Fixpoint trimEnd (s : string) : string :=
  match s with
  | EmptyString => EmptyString
  | String c rest =>
      match trimEnd rest with
      | EmptyString => if is_js_space c then EmptyString else String c EmptyString
      | rest' => String c rest'
      end
  end.

Definition trim (s : string) : string := trimEnd (trimStart s).

(** [s.substring(n)] *)
Fixpoint substring_from (n : nat) (s : string) : string :=
  match n, s with
  | O, _ => s
  | S m, EmptyString => EmptyString
  | S m, String _ rest => substring_from m rest
  end.

Definition message_body (msg : string) : JsVal := JObj [("message", JStr msg)].

(** What a middleware does: answers itself, or sets [req.auth] and calls
    [next()]. *)
Inductive Handled : Type :=
| Responded (r : Response)
| Next (auth : JsVal).

Section Http.

Variable env : Env.

(** [jwt.verify(token, secret)] at a given clock reading; it throws ([None])
    on a bad signature, a malformed token and an expired one alike. *)
Variable jwt_verify : string -> string -> Z -> option JsVal.

(** [export function requireAuth(req, res, next)], on the [Authorization]
    header of the request, at clock reading [now]. *)
Definition requireAuth (authorization : option string) (now : Z) : Handled :=
  match authorization with
  | None => Responded (mkResponse 401 (message_body "Token ausente."))
  | Some auth =>
    if negb (String.length auth =? 0)%nat && String.prefix "Bearer " auth then
      let token := trim (substring_from (String.length "Bearer ") auth) in
      match jwt_verify token (env_JWT_SECRET env) now with
      | Some payload =>
          Next (JObj [("userId", js_get payload "sub");
                      ("profile", js_get payload "profile")])
      | None =>
          Responded (mkResponse 401 (message_body "Token inválido ou expirado."))
      end
    else Responded (mkResponse 401 (message_body "Token ausente."))
  end.

(** [router.get("/me", requireAuth, ...)]: [res.json({ ok: true, auth: req.auth })]. *)
Definition get_me (authorization : option string) (now : Z) : Response :=
  match requireAuth authorization now with
  | Responded r => r
  | Next auth => mkResponse 200 (JObj [("ok", JBool true); ("auth", auth)])
  end.

(** [router.post("/login", ...)] after the rate limiter; [parsed] is
    [loginSchema.safeParse(req.body)], [None] when it did not succeed. *)
Definition post_login (parsed : option (string * string)) : Prog Response :=
  match parsed with
  | None => Ret (mkResponse 400 (message_body "Dados inválidos."))
  | Some (email, password) =>
    result <- loginWithLock env email password ;;
    match result with
    | Failure code msg => Ret (mkResponse code (message_body msg))
    | Success _ token u =>
        Ret (mkResponse 200
               (JObj [("token", JStr token);
                      ("user", JObj [("id", JNum (pu_id u));
                                     ("name", JStr (pu_name u));
                                     ("email", JStr (pu_email u));
                                     ("profile", JStr (pu_profile u))])]))
    end
  end.

End Http.

(** ** Requests served one after another *)

(** A login attempt: when it arrives and the password it supplies. *)
Record Attempt : Type := mkAttempt {
  at_time : Z;
  at_password : string
}.

Section Serving.

Variable env : Env.
Variable bcrypt_compare : string -> string -> bool.
Variable jwt_sign : JsVal -> string -> string -> Z -> string.

(** One attempt against the account of [email], served alone at its time. *)
Definition serve (email : string) (a : Attempt) (t : Table) : LoginResult * Table :=
  let (r, w) := run bcrypt_compare jwt_sign
                    (loginWithLock env email (at_password a))
                    (mkWorld t (at_time a) []) in
  (r, db w).

(** A series of attempts, none overlapping another: the answers in order,
    and the table they leave. *)
Fixpoint serve_all (email : string) (attempts : list Attempt) (t : Table)
  : list LoginResult * Table :=
  match attempts with
  | [] => ([], t)
  | a :: rest =>
      let (r, t') := serve email a t in
      let (rs, t'') := serve_all email rest t' in
      (r :: rs, t'')
  end.

(** The attempt supplies a password that [bcrypt] rejects for this account. *)
Definition wrong_for (u : User) (a : Attempt) : Prop :=
  bcrypt_compare (at_password a) (password_hash u) = false.

(** The state a lock leaves behind until a correct password resets it: a
    counter at or above the threshold, as [Math.min] has capped it, next to a
    [locked_until] that may have expired since. *)
Definition armed (u : User) : Prop :=
  exists f, failed_attempts u = Some f /\ MAX env <= f <= 255
            /\ locked_until u <> None.

End Serving.

(** The row [SELECT ... WHERE email = ? LIMIT 1] returns, if any. *)
Definition find_user (e : string) (t : Table) : option User :=
  find (fun u => String.eqb (email u) e) t.

(** Which operations a trace holds. *)
Definition is_compare (ev : Event) : bool :=
  match ev with
  | Called (BcryptCompare _ _) => true
  | Called _ => false
  end.

Definition is_update (ev : Event) : bool :=
  match ev with
  | Called (UpdateFailsAndLock _ _ _) => true
  | Called (UpdateFails _ _) => true
  | Called (ResetFailsAndLock _) => true
  | Called _ => false
  end.

Fixpoint signed_payloads (tr : list Event) : list (JsVal * string) :=
  match tr with
  | [] => []
  | Called (JwtSign payload _ expiresIn) :: rest =>
      (payload, expiresIn) :: signed_payloads rest
  | _ :: rest => signed_payloads rest
  end.

(** The trace of a request that got past the lock gate, up to the password
    comparison. *)
Definition gate_trace (e pw : string) (u : User) : list Event :=
  [Called (SelectUserByEmail e)]
  ++ (match locked_until u with Some _ => [Called DateNow] | None => [] end)
  ++ [Called (BcryptCompare pw (password_hash u))].

(** Whether a correct password finds something to reset:
    [(user.failed_attempts || 0) > 0 || user.locked_until]. *)
Definition needs_reset (u : User) : bool :=
  (0 <? js_or0 (failed_attempts u))
  || (match locked_until u with Some _ => true | None => false end).

(** Two versions of one account: the columns [loginWithLock] never writes
    agree. *)
Definition same_account (u u' : User) : Prop :=
  id u' = id u /\ name u' = name u /\ email u' = email u
  /\ password_hash u' = password_hash u /\ profile u' = profile u
  /\ status u' = status u.

(** ** What [loginWithLock] does to the row it selected *)

(** The write a request ends with, if any. *)
Inductive RowWrite : Type :=
| NoWrite
| WriteFails (fails : Z)
| WriteFailsAndLock (fails until : Z)
| WriteReset.

Definition apply_write (wr : RowWrite) (u : User) : User :=
  match wr with
  | NoWrite => u
  | WriteFails fails => set_fails fails u
  | WriteFailsAndLock fails until => set_fails_and_lock fails until u
  | WriteReset => reset_fails_and_lock u
  end.

Definition write_table (uid : Z) (wr : RowWrite) (t : Table) : Table :=
  match wr with
  | NoWrite => t
  | _ => update_by_id uid (apply_write wr) t
  end.

Section RowOutcome.

Variable env : Env.
Variable bcrypt_compare : string -> string -> bool.
Variable jwt_sign : JsVal -> string -> string -> Z -> string.

(** The branches of [loginWithLock] below the SELECT, on the selected row:
    the answer and the write.  [serve_row_outcome] shows the program does
    exactly this. *)
Definition row_outcome (u : User) (password : string) (now : Z)
  : LoginResult * RowWrite :=
  if negb (String.eqb (status u) "ACTIVE") then (Failure 403 inactiveMsg, NoWrite)
  else if isLocked now (locked_until u) then (Failure 423 lockedMsg, NoWrite)
  else if negb (bcrypt_compare password (password_hash u)) then
    if MAX env <=? newFails_of u
    then (Failure 423 justLockedMsg,
          WriteFailsAndLock (newFails_of u) (now + LOCK_MINUTES env * 60 * 1000))
    else (Failure 401 invalidMsg, WriteFails (newFails_of u))
  else (Success 200
          (jwt_sign (token_payload u) (env_JWT_SECRET env)
                    (js_or_str (env_JWT_EXPIRES_IN env) "1h") now)
          (public_user u),
        if needs_reset u then WriteReset else NoWrite).

(** Login requests for any accounts, served one after another. *)
Fixpoint serve_each (requests : list (string * Attempt)) (t : Table)
  : list LoginResult * Table :=
  match requests with
  | [] => ([], t)
  | (e, a) :: rest =>
      let (r, t') := serve env bcrypt_compare jwt_sign e a t in
      let (rs, t'') := serve_each rest t' in
      (r :: rs, t'')
  end.

(** The counters a table may hold: between 0 and 255, and at or above the
    threshold wherever [locked_until] is set. *)
Definition counter_ok (u : User) : Prop :=
  0 <= js_or0 (failed_attempts u) <= 255
  /\ (locked_until u <> None -> MAX env <= js_or0 (failed_attempts u)).

End RowOutcome.

Definition is_select (ev : Event) : bool :=
  match ev with
  | Called (SelectUserByEmail _) => true
  | Called _ => false
  end.

(** A string made of white space only. *)
Fixpoint all_space (s : string) : bool :=
  match s with
  | EmptyString => true
  | String c rest => is_js_space c && all_space rest
  end.

(** The two answers of [requireAuth]. *)
Definition missing_token : Response :=
  mkResponse 401 (message_body "Token ausente.").
Definition bad_token : Response :=
  mkResponse 401 (message_body "Token inválido ou expirado.").

(** [req.auth] as [requireAuth] sets it from the verified claims. *)
Definition auth_of (claims : JsVal) : JsVal :=
  JObj [("userId", js_get claims "sub"); ("profile", js_get claims "profile")].

(** ** [role.middleware.js] *)

(** Truthiness of a value, as [!v] sees it. *)
Definition js_truthy (v : JsVal) : bool :=
  match v with
  | JUndefined => false
  | JNull => false
  | JBool b => b
  | JNum n => negb (n =? 0)
  | JStr s => negb (String.eqb s EmptyString)
  | JObj _ => true
  end.

(** [v === s] for a string [s]. *)
Definition js_is_string (v : JsVal) (s : string) : bool :=
  match v with
  | JStr x => String.eqb x s
  | _ => false
  end.

(** [export function requireAdmin(req, res, next)], on [req.auth]. *)
Definition requireAdmin (auth : JsVal) : Handled :=
  if negb (js_truthy auth) || negb (js_is_string (js_get auth "profile") "ADMIN")
  then Responded (mkResponse 403 (message_body "Acesso negado."))
  else Next auth.

(** ** [users.service.js] *)

(** The columns [getUserById] selects: [id, name, email, profile, status]. *)
Record UserView : Type := mkUserView {
  uv_id : Z;
  uv_name : string;
  uv_email : string;
  uv_profile : string;
  uv_status : string
}.

Definition view_of (u : User) : UserView :=
  mkUserView (id u) (name u) (email u) (profile u) (status u).

(** What the service functions return: [{ ok: false, statusCode, message }]
    or [{ ok: true, statusCode, data }], [data] being a row or [null]. *)
Inductive ServiceResult : Type :=
| SFail (statusCode : Z) (message : string)
| SOk (statusCode : Z) (data : option UserView).

(** [export async function getUserById(id)]: [rows[0] || null] of
    [SELECT ... FROM users WHERE id = ? LIMIT 1]. *)
Definition getUserById (uid : Z) (t : Table) : option UserView :=
  match find (fun u => id u =? uid) t with
  | Some u => Some (view_of u)
  | None => None
  end.

(** [payload[key]] on the parsed body of an update, an object whose values are
    strings: [None] is [undefined]. *)
Fixpoint payload_get (payload : list (string * string)) (key : string)
  : option string :=
  match payload with
  | [] => None
  | (k, v) :: rest => if String.eqb k key then Some v else payload_get rest key
  end.

(** The loop of [updateUser] over ["name", "email", "profile", "status"]: the
    columns to set, with their values. *)
Definition update_fields (payload : list (string * string))
  : list (string * string) :=
  flat_map (fun key => match payload_get payload key with
                       | Some v => [(key, v)]
                       | None => []
                       end)
           ["name"; "email"; "profile"; "status"].

(** [SET key = ?] on one row, for the four columns the loop can name. *)
Definition set_column (u : User) (kv : string * string) : User :=
  let (key, v) := kv in
  if String.eqb key "name" then
    mkUser (id u) v (email u) (password_hash u) (profile u) (status u)
           (failed_attempts u) (locked_until u)
  else if String.eqb key "email" then
    mkUser (id u) (name u) v (password_hash u) (profile u) (status u)
           (failed_attempts u) (locked_until u)
  else if String.eqb key "profile" then
    mkUser (id u) (name u) (email u) (password_hash u) v (status u)
           (failed_attempts u) (locked_until u)
  else if String.eqb key "status" then
    mkUser (id u) (name u) (email u) (password_hash u) (profile u) v
           (failed_attempts u) (locked_until u)
  else u.

Definition set_columns (fields : list (string * string)) (u : User) : User :=
  fold_left set_column fields u.

(** The columns [updateUser] cannot name. *)
Definition same_credentials (r r' : User) : Prop :=
  id r' = id r /\ password_hash r' = password_hash r
  /\ failed_attempts r' = failed_attempts r /\ locked_until r' = locked_until r.

(** [payload[key]] if the payload names the column, what the row had
    otherwise. *)
Definition chosen (payload : list (string * string)) (key : string)
    (before : string) : string :=
  match payload_get payload key with
  | Some v => v
  | None => before
  end.

(** [export async function updateUser(id, payload)] *)
Definition updateUser (uid : Z) (payload : list (string * string)) (t : Table)
  : ServiceResult * Table :=
  match getUserById uid t with
  | None => (SFail 404 "Usuário não encontrado.", t)
  | Some current =>
    let fields := update_fields payload in
    match fields with
    | [] => (SOk 200 (Some current), t)
    | _ :: _ =>
      let t' := update_by_id uid (set_columns fields) t in
      (SOk 200 (getUserById uid t'), t')
    end
  end.

(** [export async function updateUserStatus(id, status)] *)
Definition updateUserStatus (uid : Z) (new_status : string) (t : Table)
  : ServiceResult * Table :=
  updateUser uid [("status", new_status)] t.

(** The parsed body of [POST /users]. *)
Record NewUser : Type := mkNewUser {
  nu_name : string;
  nu_email : string;
  nu_password : string;
  nu_profile : string
}.

Section UsersService.

(** [bcrypt.hash(password, 10)]. *)
Variable bcrypt_hash : string -> string.

(** The schema of [users] is not part of the sources: what a new row holds in
    the columns the INSERT does not name is left open. *)
Variable default_failed_attempts : option Z.
Variable default_locked_until : option Z.

(** [export async function createUser({ name, email, password, profile })];
    [insertId] is the id the store gives the new row. *)
Definition createUser (input : NewUser) (insertId : Z) (t : Table)
  : ServiceResult * Table :=
  match select_by_email (nu_email input) t with
  | _ :: _ => (SFail 409 "E-mail já cadastrado.", t)
  | [] =>
    let password_hash := bcrypt_hash (nu_password input) in
    let t' := t ++ [mkUser insertId (nu_name input) (nu_email input)
                           password_hash (nu_profile input) "ACTIVE"
                           default_failed_attempts default_locked_until] in
    (SOk 201 (getUserById insertId t'), t')
  end.

End UsersService.

(** ** [users.routes.js] *)

Definition view_json (v : option UserView) : JsVal :=
  match v with
  | None => JNull
  | Some u => JObj [("id", JNum (uv_id u)); ("name", JStr (uv_name u));
                    ("email", JStr (uv_email u)); ("profile", JStr (uv_profile u));
                    ("status", JStr (uv_status u))]
  end.

(** How the routes answer with a service result: the status and message of a
    failure, or the data under the status the route names. *)
Definition service_response (ok_status : Z) (r : ServiceResult) : Response :=
  match r with
  | SFail code msg => mkResponse code (message_body msg)
  | SOk _ data => mkResponse ok_status (view_json data)
  end.

Section UsersRoutes.

Variable env : Env.
Variable jwt_verify : string -> string -> Z -> option JsVal.
Variable bcrypt_hash : string -> string.
Variable default_failed_attempts : option Z.
Variable default_locked_until : option Z.

(** [router.use(requireAuth)], then [requireAdmin] on the routes that name
    it. *)
Definition admin_guard (authorization : option string) (now : Z) : Handled :=
  match requireAuth env jwt_verify authorization now with
  | Responded r => Responded r
  | Next auth => requireAdmin auth
  end.

(** [router.get("/:id", ...)] with [Number(req.params.id)] an integer. *)
Definition get_user (authorization : option string) (now : Z) (uid : Z)
    (t : Table) : Response :=
  match requireAuth env jwt_verify authorization now with
  | Responded r => r
  | Next _ =>
    match getUserById uid t with
    | None => mkResponse 404 (message_body "Usuário não encontrado.")
    | Some u => mkResponse 200 (view_json (Some u))
    end
  end.

(** [router.post("/", requireAdmin, ...)]; [parsed] is
    [createUserSchema.safeParse(req.body)], [None] when it did not succeed. *)
Definition post_user (authorization : option string) (now : Z)
    (parsed : option NewUser) (insertId : Z) (t : Table) : Response * Table :=
  match admin_guard authorization now with
  | Responded r => (r, t)
  | Next _ =>
    match parsed with
    | None => (mkResponse 400 (message_body "Dados inválidos."), t)
    | Some input =>
      let (result, t') :=
        createUser bcrypt_hash default_failed_attempts default_locked_until
                   input insertId t in
      (service_response 201 result, t')
    end
  end.

(** [router.put("/:id", requireAdmin, ...)] *)
Definition put_user (authorization : option string) (now : Z) (uid : Z)
    (parsed : option (list (string * string))) (t : Table) : Response * Table :=
  match admin_guard authorization now with
  | Responded r => (r, t)
  | Next _ =>
    match parsed with
    | None => (mkResponse 400 (message_body "Dados inválidos."), t)
    | Some payload =>
      let (result, t') := updateUser uid payload t in
      (service_response 200 result, t')
    end
  end.

(** [router.patch("/:id/status", requireAdmin, ...)]; [parsed] is the
    [status] of the parsed body. *)
Definition patch_user_status (authorization : option string) (now : Z) (uid : Z)
    (parsed : option string) (t : Table) : Response * Table :=
  match admin_guard authorization now with
  | Responded r => (r, t)
  | Next _ =>
    match parsed with
    | None => (mkResponse 400 (message_body "Dados inválidos."), t)
    | Some new_status =>
      let (result, t') := updateUserStatus uid new_status t in
      (service_response 200 result, t')
    end
  end.

End UsersRoutes.

(** ** [POST /auth/login], the whole route *)

Section LoginRoute.

Variable env : Env.
Variable bcrypt_compare : string -> string -> bool.
Variable jwt_sign : JsVal -> string -> string -> Z -> string.

(** Which operations on the collaborators fail, and in which world: a query
    the pool rejects, a [bcrypt.compare] or a [jwt.sign] that throws. *)
Variable fails : forall X : Type, Op X -> World -> bool.

(** A request whose collaborators may fail: the first operation that fails
    ends it with an exception ([None]) and has no effect of its own. *)
Fixpoint run_or_throw {A : Type} (p : Prog A) (w : World) : option A * World :=
  match p with
  | Ret a => (Some a, w)
  | Vis op k =>
      if fails _ op w then (None, w)
      else let (x, w') := handle bcrypt_compare jwt_sign op w in
           run_or_throw (k x) w'
  end.

(** What [express-rate-limit] sends with its 429; the text is the
    library's. *)
Variable limit_body : JsVal.

(** [router.post("/login", loginLimiter, async (req, res, next) => ...)] under
    [app.use(rateLimit(...))] and the error middleware of [app.js]:
    [limited] says that one of the two limiters refuses the request; an
    exception in the handler goes through [catch (err) { next(err) }] to
    [res.status(500).json({ message: "Erro interno." })]. *)
Definition login_route (limited : bool) (parsed : option (string * string))
    (w : World) : Response * World :=
  if limited then (mkResponse 429 limit_body, w)
  else
    match run_or_throw (post_login env parsed) w with
    | (Some resp, w') => (resp, w')
    | (None, w') => (mkResponse 500 (message_body "Erro interno."), w')
    end.

End LoginRoute.

(** ** [utils.js]: [validateEmail] *)

(** A string of the page, as its UTF-16 code units. *)
Definition JsString : Type := list N.

(** White space and line terminators, the set both [\s] and [trim] use. *)
Definition is_space16 (c : N) : bool :=
  ((9 <=? c) && (c <=? 13))%N
  || (c =? 32)%N || (c =? 160)%N || (c =? 5760)%N
  || ((8192 <=? c) && (c <=? 8202))%N
  || (c =? 8232)%N || (c =? 8233)%N || (c =? 8239)%N || (c =? 8287)%N
  || (c =? 12288)%N || (c =? 65279)%N.

Fixpoint trimStart16 (s : JsString) : JsString :=
  match s with
  | [] => []
  | c :: rest => if is_space16 c then trimStart16 rest else s
  end.

Fixpoint trimEnd16 (s : JsString) : JsString :=
  match s with
  | [] => []
  | c :: rest =>
      match trimEnd16 rest with
      | [] => if is_space16 c then [] else [c]
      | rest' => c :: rest'
      end
  end.

Definition trim16 (s : JsString) : JsString := trimEnd16 (trimStart16 s).

(** The pieces the pattern of [validateEmail] is made of: a literal
    character, or one or more characters of a class. *)
Inductive Piece : Type :=
| Lit (c : N)
| OneOrMore (class : N -> bool).

(** Whether the whole string matches the pieces in order ([^...$]): a class
    may stop after any character it accepts, and every way of stopping is
    tried. *)
Fixpoint matches (pieces : list Piece) : JsString -> bool :=
  match pieces with
  | [] => fun s => match s with [] => true | _ :: _ => false end
  | Lit c :: more =>
      fun s => match s with
               | [] => false
               | x :: s' => (x =? c)%N && matches more s'
               end
  | OneOrMore class :: more =>
      fix go (s : JsString) : bool :=
        match s with
        | [] => false
        | x :: s' => class x && (matches more s' || go s')
        end
  end.

(** [[^\s@]] *)
Definition not_space_or_at (c : N) : bool :=
  negb (is_space16 c) && negb (c =? 64)%N.

(** [/^[^\s@]+@[^\s@]+\.[^\s@]+$/] *)
Definition email_pattern : list Piece :=
  [OneOrMore not_space_or_at; Lit 64%N; OneOrMore not_space_or_at;
   Lit 46%N; OneOrMore not_space_or_at].

(** [export function validateEmail(email)], on a string. *)
Definition validateEmail (email : JsString) : bool :=
  matches email_pattern (trim16 email).

(** ** Sample collaborators and data *)

(** A stand-in for [bcrypt]: the hash of [p] is ["hash:" ++ p]. *)
Definition toy_compare (password hash : string) : bool :=
  String.eqb (String.append "hash:" password) hash.

(** A stand-in for [jsonwebtoken]: a token spells out secret, subject and
    profile, and only the token of account 1 under secret ["k"] verifies. *)
Definition toy_sign (payload : JsVal) (secret expiresIn : string) (now : Z) : string :=
  match js_get payload "sub", js_get payload "profile" with
  | JStr s, JStr p =>
      String.append secret (String.append ":" (String.append s (String.append ":" p)))
  | _, _ => EmptyString
  end.

Definition toy_verify (token secret : string) (now : Z) : option JsVal :=
  if String.eqb token "k:1:ADMIN" && String.eqb secret "k" then
    Some (JObj [("sub", JStr "1"); ("profile", JStr "ADMIN");
                ("iat", JNum 0); ("exp", JNum 3600)])
  else None.

Definition default_env : Env := mkEnv None None "k" None.
Definition env_max (n : Z) : Env := mkEnv (Some n) None "k" None.

Definition alice : User :=
  mkUser 1 "Alice" "a@x.com" "hash:secret1" "ADMIN" "ACTIVE" (Some 0) None.

Definition bob_inactive : User :=
  mkUser 2 "Bob" "b@x.com" "hash:secret2" "USER" "INACTIVE" (Some 0) (Some 900000).

Definition sample_table : Table := [alice; bob_inactive].

(** Alice with three failures counted and a lock until 400000. *)
Definition alice_locked : User :=
  mkUser 1 "Alice" "a@x.com" "hash:secret1" "ADMIN" "ACTIVE" (Some 3) (Some 400000).

Definition alice_two_fails : User :=
  mkUser 1 "Alice" "a@x.com" "hash:secret1" "ADMIN" "ACTIVE" (Some 2) None.

Definition alice_four_fails : User :=
  mkUser 1 "Alice" "a@x.com" "hash:secret1" "ADMIN" "ACTIVE" (Some 4) None.

(** A stand-in for [bcrypt.hash], the one [toy_compare] accepts. *)
Definition toy_hash (password : string) : string :=
  String.append "hash:" password.

(** Carol, an ordinary user with one failure counted. *)
Definition carol : User :=
  mkUser 3 "Carol" "c@x.com" "hash:secret3" "USER" "ACTIVE" (Some 1) None.

Definition three_users : Table := [alice; bob_inactive; carol].

Definition dave_input : NewUser := mkNewUser "Dave" "d@x.com" "secret4" "USER".

(** ["a@b.co"] and [" a@b.co "] in code units. *)
Definition sample_email : JsString := [97; 64; 98; 46; 99; 111]%N.
Definition padded_email : JsString := [32; 97; 64; 98; 46; 99; 111; 32]%N.

(** ** Properties *)

Section Properties.

Variable env : Env.
Variable bcrypt_compare : string -> string -> bool.
Variable jwt_sign : JsVal -> string -> string -> Z -> string.
Variable jwt_verify : string -> string -> Z -> option JsVal.

Local Abbreviation run' := (run bcrypt_compare jwt_sign).
Local Abbreviation login := (loginWithLock env).

(** Worlds that differ in how their traces are bracketed. *)
Ltac traces :=
  unfold logged; simpl; repeat rewrite <- app_assoc; reflexivity.

Lemma run_bind {A B : Type} (p : Prog A) (f : A -> Prog B) (w : World) :
  run' (bind p f) w = let (a, w') := run' p w in run' (f a) w'.
Proof.
  revert w. induction p as [a | X op k IH]; intro w; simpl.
  - reflexivity.
  - destruct (handle bcrypt_compare jwt_sign op w) as [x w'].
    apply IH.
Qed.

(** Serving a request alone is performing its operations one by one with
    nothing in between. *)
Lemma run_step {A : Type} (p : Prog A) (w : World) :
  run' p w
  = let (p', w') := step bcrypt_compare jwt_sign p w in run' p' w'.
Proof.
  destruct p as [a | X op k]; simpl; [reflexivity |].
  destruct (handle bcrypt_compare jwt_sign op w) as [x w1]. reflexivity.
Qed.

Lemma select_by_email_find (e : string) (t : Table) :
  select_by_email e t = match find_user e t with Some u => [u] | None => [] end.
Proof. reflexivity. Qed.

(** The gates of [loginWithLock], one lemma per way through the function. *)

Lemma login_unknown (e pw : string) (w : World) :
  find_user e (db w) = None ->
  run' (login e pw) w
  = (Failure 401 invalidMsg,
     mkWorld (db w) (clock w) (trace w ++ [Called (SelectUserByEmail e)])).
Proof.
  intro H. unfold loginWithLock. simpl.
  rewrite select_by_email_find, H. reflexivity.
Qed.

Lemma login_inactive (e pw : string) (w : World) (u : User) :
  find_user e (db w) = Some u ->
  String.eqb (status u) "ACTIVE" = false ->
  run' (login e pw) w
  = (Failure 403 inactiveMsg,
     mkWorld (db w) (clock w) (trace w ++ [Called (SelectUserByEmail e)])).
Proof.
  intros H Hs. unfold loginWithLock. simpl.
  rewrite select_by_email_find, H. simpl. rewrite Hs. reflexivity.
Qed.

Lemma login_locked (e pw : string) (w : World) (u : User) :
  find_user e (db w) = Some u ->
  String.eqb (status u) "ACTIVE" = true ->
  isLocked (clock w) (locked_until u) = true ->
  run' (login e pw) w
  = (Failure 423 lockedMsg,
     mkWorld (db w) (clock w)
             (trace w ++ [Called (SelectUserByEmail e)] ++ [Called DateNow])).
Proof.
  intros H Hs Hl. unfold loginWithLock. simpl.
  rewrite select_by_email_find, H. simpl. rewrite Hs. simpl.
  unfold lockGate. unfold isLocked in Hl.
  destruct (locked_until u) as [until|]; [|discriminate].
  simpl. rewrite Hl. simpl. traces.
Qed.

Lemma login_wrong_locks (e pw : string) (w : World) (u : User) :
  find_user e (db w) = Some u ->
  String.eqb (status u) "ACTIVE" = true ->
  isLocked (clock w) (locked_until u) = false ->
  bcrypt_compare pw (password_hash u) = false ->
  MAX env <= newFails_of u ->
  run' (login e pw) w
  = (Failure 423 justLockedMsg,
     mkWorld (update_by_id (id u)
                (set_fails_and_lock (newFails_of u)
                                    (clock w + LOCK_MINUTES env * 60 * 1000))
                (db w))
             (clock w)
             (trace w ++ gate_trace e pw u
                ++ [Called DateNow;
                    Called (UpdateFailsAndLock (newFails_of u)
                              (clock w + LOCK_MINUTES env * 60 * 1000) (id u))])).
Proof.
  intros H Hs Hl Hp Hm. unfold loginWithLock, gate_trace. simpl.
  rewrite select_by_email_find, H. simpl. rewrite Hs. simpl.
  unfold lockGate. unfold isLocked in Hl.
  apply Z.leb_le in Hm.
  destruct (locked_until u) as [until|]; simpl;
    rewrite ?Hl; simpl; rewrite Hp; simpl; rewrite Hm; simpl;
    traces.
Qed.

Lemma login_wrong_counts (e pw : string) (w : World) (u : User) :
  find_user e (db w) = Some u ->
  String.eqb (status u) "ACTIVE" = true ->
  isLocked (clock w) (locked_until u) = false ->
  bcrypt_compare pw (password_hash u) = false ->
  newFails_of u < MAX env ->
  run' (login e pw) w
  = (Failure 401 invalidMsg,
     mkWorld (update_by_id (id u) (set_fails (newFails_of u)) (db w))
             (clock w)
             (trace w ++ gate_trace e pw u
                ++ [Called (UpdateFails (newFails_of u) (id u))])).
Proof.
  intros H Hs Hl Hp Hm. unfold loginWithLock, gate_trace. simpl.
  rewrite select_by_email_find, H. simpl. rewrite Hs. simpl.
  unfold lockGate. unfold isLocked in Hl.
  apply Z.leb_gt in Hm.
  destruct (locked_until u) as [until|]; simpl;
    rewrite ?Hl; simpl; rewrite Hp; simpl; rewrite Hm; simpl;
    traces.
Qed.

Lemma login_success (e pw : string) (w : World) (u : User) :
  find_user e (db w) = Some u ->
  String.eqb (status u) "ACTIVE" = true ->
  isLocked (clock w) (locked_until u) = false ->
  bcrypt_compare pw (password_hash u) = true ->
  let sign := JwtSign (token_payload u) (env_JWT_SECRET env)
                      (js_or_str (env_JWT_EXPIRES_IN env) "1h") in
  run' (login e pw) w
  = (Success 200
       (jwt_sign (token_payload u) (env_JWT_SECRET env)
                 (js_or_str (env_JWT_EXPIRES_IN env) "1h") (clock w))
       (public_user u),
     mkWorld (if needs_reset u
              then update_by_id (id u) reset_fails_and_lock (db w)
              else db w)
             (clock w)
             (trace w ++ gate_trace e pw u
                ++ (if needs_reset u then [Called (ResetFailsAndLock (id u))] else [])
                ++ [Called sign])).
Proof.
  intros H Hs Hl Hp sign. subst sign. unfold loginWithLock, gate_trace. simpl.
  rewrite select_by_email_find, H. simpl. rewrite Hs. simpl.
  unfold lockGate, needs_reset. unfold isLocked in Hl.
  destruct (locked_until u) as [until|]; simpl;
    rewrite ?Hl; simpl; rewrite Hp; simpl.
  - rewrite orb_true_r. simpl. traces.
  - rewrite orb_false_r.
    destruct (0 <? js_or0 (failed_attempts u)); simpl; traces.
Qed.

(** *** The table under [UPDATE ... WHERE id = ?] *)

Lemma find_user_update (e : string) (t : Table) (u : User) (f : User -> User) :
  (forall x, email (f x) = email x) ->
  find_user e t = Some u ->
  find_user e (update_by_id (id u) f t) = Some (f u).
Proof.
  intros Hf. unfold find_user, update_by_id.
  induction t as [|h rest IH]; simpl; [discriminate|].
  destruct (String.eqb (email h) e) eqn:He.
  - intro H. injection H as ->. rewrite Z.eqb_refl. simpl.
    rewrite Hf, He. reflexivity.
  - intro H. destruct (id h =? id u); simpl; rewrite ?Hf, He; auto.
Qed.

Lemma email_set_fails_and_lock (a b : Z) (x : User) :
  email (set_fails_and_lock a b x) = email x.
Proof. reflexivity. Qed.

Lemma email_set_fails (a : Z) (x : User) : email (set_fails a x) = email x.
Proof. reflexivity. Qed.

Lemma email_reset (x : User) : email (reset_fails_and_lock x) = email x.
Proof. reflexivity. Qed.

(** *** One attempt, as [serve] sees it *)

Lemma serve_run (e : string) (a : Attempt) (t : Table) :
  serve env bcrypt_compare jwt_sign e a t
  = (fst (run' (login e (at_password a)) (mkWorld t (at_time a) [])),
     db (snd (run' (login e (at_password a)) (mkWorld t (at_time a) [])))).
Proof.
  unfold serve.
  destruct (run' (login e (at_password a)) (mkWorld t (at_time a) [])).
  reflexivity.
Qed.

Local Abbreviation serve' := (serve env bcrypt_compare jwt_sign).
Local Abbreviation serve_all' := (serve_all env bcrypt_compare jwt_sign).

Lemma serve_unknown (e : string) (a : Attempt) (t : Table) :
  find_user e t = None ->
  serve' e a t = (Failure 401 invalidMsg, t).
Proof.
  intro H. rewrite serve_run, login_unknown by exact H. reflexivity.
Qed.

Lemma serve_inactive (e : string) (a : Attempt) (t : Table) (u : User) :
  find_user e t = Some u ->
  String.eqb (status u) "ACTIVE" = false ->
  serve' e a t = (Failure 403 inactiveMsg, t).
Proof.
  intros H Hs. rewrite serve_run, (login_inactive _ _ _ u) by assumption.
  reflexivity.
Qed.

Lemma serve_locked (e : string) (a : Attempt) (t : Table) (u : User) :
  find_user e t = Some u ->
  String.eqb (status u) "ACTIVE" = true ->
  isLocked (at_time a) (locked_until u) = true ->
  serve' e a t = (Failure 423 lockedMsg, t).
Proof.
  intros H Hs Hl. rewrite serve_run, (login_locked _ _ _ u) by assumption.
  reflexivity.
Qed.

Lemma serve_wrong_locks (e : string) (a : Attempt) (t : Table) (u : User) :
  find_user e t = Some u ->
  String.eqb (status u) "ACTIVE" = true ->
  isLocked (at_time a) (locked_until u) = false ->
  bcrypt_compare (at_password a) (password_hash u) = false ->
  MAX env <= newFails_of u ->
  serve' e a t
  = (Failure 423 justLockedMsg,
     update_by_id (id u)
       (set_fails_and_lock (newFails_of u)
                           (at_time a + LOCK_MINUTES env * 60 * 1000)) t).
Proof.
  intros H Hs Hl Hp Hm.
  rewrite serve_run, (login_wrong_locks _ _ _ u) by assumption.
  reflexivity.
Qed.

Lemma serve_wrong_counts (e : string) (a : Attempt) (t : Table) (u : User) :
  find_user e t = Some u ->
  String.eqb (status u) "ACTIVE" = true ->
  isLocked (at_time a) (locked_until u) = false ->
  bcrypt_compare (at_password a) (password_hash u) = false ->
  newFails_of u < MAX env ->
  serve' e a t
  = (Failure 401 invalidMsg, update_by_id (id u) (set_fails (newFails_of u)) t).
Proof.
  intros H Hs Hl Hp Hm.
  rewrite serve_run, (login_wrong_counts _ _ _ u) by assumption.
  reflexivity.
Qed.

Lemma serve_success (e : string) (a : Attempt) (t : Table) (u : User) :
  find_user e t = Some u ->
  String.eqb (status u) "ACTIVE" = true ->
  isLocked (at_time a) (locked_until u) = false ->
  bcrypt_compare (at_password a) (password_hash u) = true ->
  ok_of (fst (serve' e a t)) = true.
Proof.
  intros H Hs Hl Hp.
  rewrite serve_run, (login_success _ _ _ u) by assumption.
  reflexivity.
Qed.

(** *** The lock gate *)

(** C5: the lock gate holds exactly when [locked_until] is present and
    strictly later than the clock reading; an absent [locked_until], one in
    the past and one equal to the clock reading all count as not locked. *)
Theorem lock_predicate_strict (user : User) (w : World) :
  fst (run' (lockGate user) w) = isLocked (clock w) (locked_until user)
  /\ (isLocked (clock w) (locked_until user) = true
      <-> exists until, locked_until user = Some until /\ clock w < until)
  /\ isLocked (clock w) None = false
  /\ isLocked (clock w) (Some (clock w)) = false
  /\ (forall until, until <= clock w -> isLocked (clock w) (Some until) = false).
Proof.
  split; [|split; [split|split; [|split]]].
  - unfold lockGate, isLocked.
    destruct (locked_until user); reflexivity.
  - unfold isLocked. destruct (locked_until user) as [until|]; [|discriminate].
    intro H. exists until. split; [reflexivity | now apply Z.ltb_lt].
  - intros [until [-> H]]. now apply Z.ltb_lt.
  - reflexivity.
  - apply Z.ltb_irrefl.
  - intros lu H. now apply Z.ltb_ge.
Qed.

(** C2: a login attempt on an ACTIVE account whose [locked_until] is strictly
    in the future answers 423 after the SELECT and one clock reading: no
    password comparison, no UPDATE, the table as it was. *)
Theorem locked_login_is_inert
    (e pw : string) (w : World) (u : User) (until : Z) :
  find_user e (db w) = Some u ->
  status u = "ACTIVE" ->
  locked_until u = Some until ->
  clock w < until ->
  exists w',
    run' (login e pw) w = (Failure 423 lockedMsg, w')
    /\ db w' = db w
    /\ trace w' = trace w ++ [Called (SelectUserByEmail e); Called DateNow]
    /\ filter is_compare (trace w') = filter is_compare (trace w)
    /\ filter is_update (trace w') = filter is_update (trace w).
Proof.
  intros H Hs Hu Hlt. eexists. split.
  - apply (login_locked e pw w u H).
    + rewrite Hs. reflexivity.
    + rewrite Hu. now apply Z.ltb_lt.
  - simpl. repeat split; rewrite filter_app; simpl; now rewrite app_nil_r.
Qed.

(** C6: a login attempt on an account whose status is not ACTIVE answers 403
    right after the SELECT, whatever the password and whatever
    [failed_attempts] and [locked_until] hold; nothing is compared and nothing
    is written. *)
Theorem inactive_login_rejected (e pw : string) (w : World) (u : User) :
  find_user e (db w) = Some u ->
  status u <> "ACTIVE" ->
  exists w',
    run' (login e pw) w = (Failure 403 inactiveMsg, w')
    /\ db w' = db w
    /\ trace w' = trace w ++ [Called (SelectUserByEmail e)].
Proof.
  intros H Hs. eexists. split.
  - apply (login_inactive e pw w u H).
    now apply String.eqb_neq.
  - split; reflexivity.
Qed.

(** C4: an unknown email and a wrong password that does not engage the lock
    get the same result from [loginWithLock], and the same HTTP response from
    the [/login] route: status 401 and the body
    [{ message: "Credenciais inválidas." }]. *)
Theorem unknown_and_wrong_indistinguishable
    (e1 pw1 e2 pw2 : string) (w1 w2 : World) (u : User) :
  find_user e1 (db w1) = None ->
  find_user e2 (db w2) = Some u ->
  status u = "ACTIVE" ->
  isLocked (clock w2) (locked_until u) = false ->
  bcrypt_compare pw2 (password_hash u) = false ->
  newFails_of u < MAX env ->
  fst (run' (login e1 pw1) w1) = Failure 401 "Credenciais inválidas."
  /\ fst (run' (login e2 pw2) w2) = Failure 401 "Credenciais inválidas."
  /\ fst (run' (post_login env (Some (e1, pw1))) w1)
     = mkResponse 401 (JObj [("message", JStr "Credenciais inválidas.")])
  /\ fst (run' (post_login env (Some (e2, pw2))) w2)
     = fst (run' (post_login env (Some (e1, pw1))) w1).
Proof.
  intros H1 H2 Hs Hl Hp Hm.
  assert (Hs' : String.eqb (status u) "ACTIVE" = true) by (rewrite Hs; reflexivity).
  pose proof (login_unknown e1 pw1 w1 H1) as R1.
  pose proof (login_wrong_counts e2 pw2 w2 u H2 Hs' Hl Hp Hm) as R2.
  unfold post_login. rewrite !run_bind, R1, R2. simpl. auto.
Qed.

(** C10: whatever threshold [MAX_LOGIN_ATTEMPTS] configures, the wrong-password
    attempt that engages the lock is answered with the message
    "3 tentativas incorretas. Usuário bloqueado.", which is not the message of
    an attempt on an account already locked. *)
Theorem lock_message_is_fixed (e pw : string) (w : World) (u : User) :
  find_user e (db w) = Some u ->
  status u = "ACTIVE" ->
  isLocked (clock w) (locked_until u) = false ->
  bcrypt_compare pw (password_hash u) = false ->
  MAX env <= newFails_of u ->
  fst (run' (login e pw) w)
  = Failure 423 "3 tentativas incorretas. Usuário bloqueado."
  /\ justLockedMsg = "3 tentativas incorretas. Usuário bloqueado."
  /\ lockedMsg = "Usuário bloqueado temporariamente."
  /\ justLockedMsg <> lockedMsg.
Proof.
  intros H Hs Hl Hp Hm.
  assert (Hs' : String.eqb (status u) "ACTIVE" = true) by (rewrite Hs; reflexivity).
  rewrite (login_wrong_locks e pw w u H Hs' Hl Hp Hm).
  repeat split. discriminate.
Qed.

(** *** The failure handler *)


(** *** Attempts served one after another *)

Lemma same_account_refl (u : User) : same_account u u.
Proof. repeat split. Qed.

Lemma same_account_trans (u v x : User) :
  same_account u v -> same_account v x -> same_account u x.
Proof. unfold same_account. intuition congruence. Qed.

Lemma serve_all_app (e : string) (xs ys : list Attempt) (t : Table) :
  serve_all' e (xs ++ ys) t
  = let (rs, t') := serve_all' e xs t in
    let (rs', t'') := serve_all' e ys t' in
    (rs ++ rs', t'').
Proof.
  revert t. induction xs as [|a xs IH]; intro t; simpl.
  - destruct (serve_all' e ys t). reflexivity.
  - destruct (serve' e a t) as [r t1]. rewrite IH.
    destruct (serve_all' e xs t1) as [rs t2].
    destruct (serve_all' e ys t2) as [rs' t3]. reflexivity.
Qed.

(** Below the threshold every wrong password is answered 401 and counted. *)
Lemma wrong_attempts_count (e : string) (attempts : list Attempt) :
  forall (t : Table) (u : User),
    find_user e t = Some u ->
    status u = "ACTIVE" ->
    locked_until u = None ->
    Forall (wrong_for bcrypt_compare u) attempts ->
    js_or0 (failed_attempts u) + Z.of_nat (List.length attempts) < MAX env ->
    js_or0 (failed_attempts u) + Z.of_nat (List.length attempts) <= 255 ->
    exists t' u',
      serve_all' e attempts t
      = (repeat (Failure 401 invalidMsg) (List.length attempts), t')
      /\ find_user e t' = Some u'
      /\ same_account u u'
      /\ locked_until u' = None
      /\ js_or0 (failed_attempts u')
         = js_or0 (failed_attempts u) + Z.of_nat (List.length attempts).
Proof.
  induction attempts as [|a rest IH]; intros t u H Hs Hl Hw Hm Hc.
  - exists t, u. simpl. repeat split; auto. lia.
  - inversion Hw as [|? ? Ha Hrest]; subst.
    cbn [List.length] in Hm, Hc. rewrite Nat2Z.inj_succ in Hm, Hc.
    assert (Hs' : String.eqb (status u) "ACTIVE" = true) by (rewrite Hs; reflexivity).
    assert (Hnf : newFails_of u = js_or0 (failed_attempts u) + 1)
      by (unfold newFails_of; lia).
    assert (Hstep : serve' e a t
                    = (Failure 401 invalidMsg,
                       update_by_id (id u) (set_fails (newFails_of u)) t)).
    { apply serve_wrong_counts; auto.
      - rewrite Hl. reflexivity.
      - lia. }
    set (u1 := set_fails (newFails_of u) u).
    set (t1 := update_by_id (id u) (set_fails (newFails_of u)) t) in *.
    assert (H1 : find_user e t1 = Some u1)
      by (apply find_user_update; [apply email_set_fails | exact H]).
    destruct (IH t1 u1 H1 Hs Hl) as (t' & u' & Hall & Hf & Hsame & Hl' & Hcnt).
    + exact Hrest.
    + simpl. rewrite Hnf. lia.
    + simpl. rewrite Hnf. lia.
    + exists t', u'. cbn [serve_all List.length repeat]. rewrite Hstep, Hall.
      repeat split; try apply Hsame; auto.
      rewrite Hcnt. simpl. rewrite Hnf. lia.
Qed.

(** The wrong password that brings the count to the threshold engages the
    lock. *)
Lemma wrong_attempt_engages (e : string) (a : Attempt) (t : Table) (u : User) :
  find_user e t = Some u ->
  status u = "ACTIVE" ->
  isLocked (at_time a) (locked_until u) = false ->
  wrong_for bcrypt_compare u a ->
  MAX env <= newFails_of u ->
  exists t' u',
    serve' e a t = (Failure 423 justLockedMsg, t')
    /\ find_user e t' = Some u'
    /\ same_account u u'
    /\ failed_attempts u' = Some (newFails_of u)
    /\ locked_until u' = Some (at_time a + LOCK_MINUTES env * 60 * 1000).
Proof.
  intros H Hs Hl Hw Hm.
  assert (Hs' : String.eqb (status u) "ACTIVE" = true) by (rewrite Hs; reflexivity).
  eexists _, _. split; [apply (serve_wrong_locks e a t u); auto |].
  split; [apply find_user_update; [apply email_set_fails_and_lock | exact H] |].
  repeat split.
Qed.

Lemma wrong_for_same (u u' : User) (a : Attempt) :
  same_account u u' -> wrong_for bcrypt_compare u a -> wrong_for bcrypt_compare u' a.
Proof.
  unfold wrong_for. intros (_ & _ & _ & Hh & _) H. rewrite Hh. exact H.
Qed.

(** Wrong passwords up to the threshold: 401 for each but the last, which
    engages the lock. *)
Lemma wrong_attempts_reach (e : string) (firsts : list Attempt) (lastA : Attempt)
    (t : Table) (u : User) :
  find_user e t = Some u ->
  status u = "ACTIVE" ->
  locked_until u = None ->
  Forall (wrong_for bcrypt_compare u) (firsts ++ [lastA]) ->
  js_or0 (failed_attempts u) + Z.of_nat (List.length firsts) + 1 = MAX env ->
  MAX env <= 255 ->
  exists t' u',
    serve_all' e (firsts ++ [lastA]) t
    = (repeat (Failure 401 invalidMsg) (List.length firsts)
         ++ [Failure 423 justLockedMsg], t')
    /\ find_user e t' = Some u'
    /\ same_account u u'
    /\ failed_attempts u' = Some (MAX env)
    /\ locked_until u' = Some (at_time lastA + LOCK_MINUTES env * 60 * 1000).
Proof.
  intros H Hs Hl Hw Hm Hc.
  apply Forall_app in Hw. destruct Hw as [Hw1 Hw2].
  inversion Hw2 as [|? ? Hlast _]; subst.
  destruct (wrong_attempts_count e firsts t u H Hs Hl Hw1)
    as (t1 & u1 & Hall & Hf1 & Hsame1 & Hl1 & Hcnt1); [lia | lia |].
  assert (Hnf : newFails_of u1 = MAX env) by (unfold newFails_of; lia).
  destruct (wrong_attempt_engages e lastA t1 u1 Hf1) as (t' & u' & Hstep & Hf & Hsame & Hfa & Hlu).
  - destruct Hsame1 as (_ & _ & _ & _ & _ & Hst). congruence.
  - rewrite Hl1. reflexivity.
  - eapply wrong_for_same; eauto.
  - lia.
  - exists t', u'. rewrite serve_all_app, Hall. cbn [serve_all]. rewrite Hstep.
    repeat split; try apply (same_account_trans u u1 u' Hsame1 Hsame); auto.
    congruence.
Qed.

(** C1 (as the code has it): when the threshold [MAX] is at most 255, the
    value the counter is capped at, then on an ACTIVE account with no failures
    counted and no lock, [MAX] wrong passwords in a row are answered 401, ...,
    401, 423; from then on every attempt made before [LOCK_MINUTES] have
    passed since the last of them is answered 423 and leaves the table alone,
    even with the right password; once the minutes have passed the right
    password logs in. *)
Theorem lock_after_max_failures
    (e : string) (firsts : list Attempt) (lastA : Attempt) (t : Table) (u : User) :
  find_user e t = Some u ->
  status u = "ACTIVE" ->
  js_or0 (failed_attempts u) = 0 ->
  locked_until u = None ->
  Forall (wrong_for bcrypt_compare u) (firsts ++ [lastA]) ->
  Z.of_nat (List.length (firsts ++ [lastA])) = MAX env ->
  MAX env <= 255 ->
  exists t',
    serve_all' e (firsts ++ [lastA]) t
    = (repeat (Failure 401 invalidMsg) (List.length firsts)
         ++ [Failure 423 justLockedMsg], t')
    /\ (forall a : Attempt,
          at_time a < at_time lastA + LOCK_MINUTES env * 60 * 1000 ->
          serve' e a t' = (Failure 423 lockedMsg, t'))
    /\ (forall a : Attempt,
          at_time lastA + LOCK_MINUTES env * 60 * 1000 <= at_time a ->
          bcrypt_compare (at_password a) (password_hash u) = true ->
          ok_of (fst (serve' e a t')) = true).
Proof.
  intros H Hs Hz Hl Hw Hn Hc.
  rewrite length_app in Hn. cbn [List.length] in Hn.
  destruct (wrong_attempts_reach e firsts lastA t u H Hs Hl Hw)
    as (t' & u' & Hall & Hf & Hsame & Hfa & Hlu); [lia | exact Hc |].
  destruct Hsame as (_ & _ & _ & Hh & _ & Hst).
  assert (Hs' : String.eqb (status u') "ACTIVE" = true)
    by (rewrite Hst, Hs; reflexivity).
  exists t'. split; [exact Hall | split].
  - intros a Ha. apply (serve_locked e a t' u' Hf Hs').
    rewrite Hlu. now apply Z.ltb_lt.
  - intros a Ha Hp. apply (serve_success e a t' u' Hf Hs').
    + rewrite Hlu. now apply Z.ltb_ge.
    + rewrite Hh. exact Hp.
Qed.

(** C7 (as the code has it): the counter is written back from the value the
    request read, so the count is exact when requests do not overlap: [n]
    wrong passwords served one after another on an unlocked ACTIVE account
    take the counter from [f] to [f + n] as long as that does not pass the
    threshold, and the account is locked at the end exactly when [f + n] has
    reached the threshold. *)
Theorem sequential_failures_counted
    (e : string) (attempts : list Attempt) (t : Table) (u : User) :
  find_user e t = Some u ->
  status u = "ACTIVE" ->
  locked_until u = None ->
  Forall (wrong_for bcrypt_compare u) attempts ->
  js_or0 (failed_attempts u) + Z.of_nat (List.length attempts) <= MAX env ->
  MAX env <= 255 ->
  exists rs t' u',
    serve_all' e attempts t = (rs, t')
    /\ find_user e t' = Some u'
    /\ js_or0 (failed_attempts u')
       = js_or0 (failed_attempts u) + Z.of_nat (List.length attempts)
    /\ (locked_until u' <> None
        <-> attempts <> []
            /\ js_or0 (failed_attempts u) + Z.of_nat (List.length attempts)
               = MAX env).
Proof.
  intros H Hs Hl Hw Hn Hc.
  assert (Hcase : attempts = [] \/ attempts <> [])
    by (destruct attempts; [left; reflexivity | right; discriminate]).
  destruct Hcase as [-> | Hne].
  { exists [], t, u. simpl. split; [reflexivity |]. split; [exact H |].
    split; [lia |]. rewrite Hl.
    split; [intro X; contradiction | intros [X _]; contradiction]. }
  destruct (exists_last Hne) as (firsts & lastA & Hsplit).
  assert (Hlen : Z.of_nat (List.length attempts) = Z.of_nat (List.length firsts) + 1).
  { rewrite Hsplit, length_app. cbn [List.length]. lia. }
  destruct (Z.eq_dec (js_or0 (failed_attempts u) + Z.of_nat (List.length attempts))
                     (MAX env)) as [Heq | Hneq].
  - rewrite Hsplit in Hw.
    destruct (wrong_attempts_reach e firsts lastA t u H Hs Hl Hw)
      as (t' & u' & Hall & Hf & Hsame & Hfa & Hlu); [lia | exact Hc |].
    eexists _, t', u'. rewrite Hsplit at 1. split; [exact Hall |].
    split; [exact Hf |]. split.
    + rewrite Hfa. simpl. lia.
    + rewrite Hlu. split; [intros _; split; [exact Hne | exact Heq] | discriminate].
  - destruct (wrong_attempts_count e attempts t u H Hs Hl Hw)
      as (t' & u' & Hall & Hf & Hsame & Hl' & Hcnt); [lia | lia |].
    eexists _, t', u'. split; [exact Hall |].
    split; [exact Hf |]. split; [exact Hcnt |].
    rewrite Hl'. split; [congruence | intros [_ Heq]; contradiction].
Qed.

(** *** A lock that has expired but was never reset *)

Lemma justLocked_inv (e : string) (a : Attempt) (t : Table) (u : User) :
  find_user e t = Some u ->
  status u = "ACTIVE" ->
  fst (serve' e a t) = Failure 423 justLockedMsg ->
  isLocked (at_time a) (locked_until u) = false
  /\ wrong_for bcrypt_compare u a
  /\ MAX env <= newFails_of u.
Proof.
  intros H Hs Hr.
  assert (Hs' : String.eqb (status u) "ACTIVE" = true) by (rewrite Hs; reflexivity).
  destruct (isLocked (at_time a) (locked_until u)) eqn:Hl.
  { rewrite (serve_locked e a t u H Hs' Hl) in Hr. discriminate. }
  unfold wrong_for.
  destruct (bcrypt_compare (at_password a) (password_hash u)) eqn:Hp.
  { pose proof (serve_success e a t u H Hs' Hl Hp) as Hok.
    rewrite Hr in Hok. discriminate. }
  destruct (Z_le_gt_dec (MAX env) (newFails_of u)) as [Hm | Hm]; [auto |].
  rewrite (serve_wrong_counts e a t u H Hs' Hl Hp) in Hr by lia. discriminate.
Qed.

Lemma armed_step (e : string) (a : Attempt) (t : Table) (u : User) :
  find_user e t = Some u ->
  status u = "ACTIVE" ->
  armed env u ->
  ok_of (fst (serve' e a t)) = false ->
  exists u',
    find_user e (snd (serve' e a t)) = Some u'
    /\ same_account u u'
    /\ armed env u'.
Proof.
  intros H Hs (f & Hf & Hrange & Hlu) Hok.
  assert (Hs' : String.eqb (status u) "ACTIVE" = true) by (rewrite Hs; reflexivity).
  destruct (isLocked (at_time a) (locked_until u)) eqn:Hl.
  { rewrite (serve_locked e a t u H Hs' Hl). exists u. simpl.
    split; [exact H | split; [apply same_account_refl |]].
    exists f. auto. }
  destruct (bcrypt_compare (at_password a) (password_hash u)) eqn:Hp.
  { rewrite (serve_success e a t u H Hs' Hl Hp) in Hok. discriminate. }
  assert (Hnf : MAX env <= newFails_of u <= 255)
    by (unfold newFails_of; rewrite Hf; simpl; lia).
  destruct (wrong_attempt_engages e a t u H Hs Hl Hp)
    as (t' & u' & Hstep & Hf' & Hsame & Hfa & Hlu'); [lia |].
  rewrite Hstep. exists u'. simpl.
  split; [exact Hf' | split; [exact Hsame |]].
  exists (newFails_of u). rewrite Hlu'. repeat split; try lia; auto. discriminate.
Qed.

Lemma armed_steps (e : string) (attempts : list Attempt) :
  forall (t : Table) (u : User),
    find_user e t = Some u ->
    status u = "ACTIVE" ->
    armed env u ->
    Forall (fun r => ok_of r = false) (fst (serve_all' e attempts t)) ->
    exists u',
      find_user e (snd (serve_all' e attempts t)) = Some u'
      /\ same_account u u'
      /\ armed env u'.
Proof.
  induction attempts as [|a rest IH]; intros t u H Hs Ha Hall.
  - exists u. simpl. auto using same_account_refl.
  - cbn [serve_all] in *.
    pose proof (armed_step e a t u H Hs Ha) as Hstep.
    destruct (serve' e a t) as [r t1]. simpl in Hstep.
    specialize (IH t1).
    destruct (serve_all' e rest t1) as [rs t2]. simpl in *.
    inversion Hall as [|? ? Hr Hrs]; subst.
    destruct (Hstep Hr) as (u1 & Hf1 & Hsame1 & Ha1).
    destruct (IH u1 Hf1) as (u2 & Hf2 & Hsame2 & Ha2); auto.
    + destruct Hsame1 as (_ & _ & _ & _ & _ & Hst). congruence.
    + exists u2. eauto using same_account_trans.
Qed.

(** C9: once a wrong password has engaged the lock and no login has succeeded
    since, the counter still stands at or above the threshold; the first wrong
    password after the lock has run out is therefore answered with the 423 of
    a lock just engaged, stores the counter plus one (capped at 255) and locks
    the account for another [LOCK_MINUTES]. *)
Theorem relock_after_expiry
    (e : string) (a0 : Attempt) (between : list Attempt) (a1 : Attempt)
    (t : Table) (u : User) :
  find_user e t = Some u ->
  status u = "ACTIVE" ->
  fst (serve' e a0 t) = Failure 423 justLockedMsg ->
  Forall (fun r => ok_of r = false)
         (fst (serve_all' e between (snd (serve' e a0 t)))) ->
  (forall u1,
     find_user e (snd (serve_all' e between (snd (serve' e a0 t)))) = Some u1 ->
     isLocked (at_time a1) (locked_until u1) = false) ->
  wrong_for bcrypt_compare u a1 ->
  exists u1 f t2 u2,
    find_user e (snd (serve_all' e between (snd (serve' e a0 t)))) = Some u1
    /\ failed_attempts u1 = Some f
    /\ MAX env <= f
    /\ locked_until u1 <> None
    /\ serve' e a1 (snd (serve_all' e between (snd (serve' e a0 t))))
       = (Failure 423 justLockedMsg, t2)
    /\ find_user e t2 = Some u2
    /\ failed_attempts u2 = Some (Z.min (f + 1) 255)
    /\ locked_until u2 = Some (at_time a1 + LOCK_MINUTES env * 60 * 1000).
Proof.
  intros H Hs Hr Hnone Hexp Hw.
  destruct (justLocked_inv e a0 t u H Hs Hr) as (Hl0 & Hw0 & Hm0).
  destruct (wrong_attempt_engages e a0 t u H Hs Hl0 Hw0 Hm0)
    as (t0 & u0 & Hstep0 & Hf0 & Hsame0 & Hfa0 & Hlu0).
  rewrite Hstep0 in *. simpl in *.
  assert (Hs0 : status u0 = "ACTIVE")
    by (destruct Hsame0 as (_ & _ & _ & _ & _ & Hst); congruence).
  assert (Ha0 : armed env u0).
  { exists (newFails_of u). rewrite Hlu0.
    repeat split; auto; [unfold newFails_of; lia | discriminate]. }
  destruct (armed_steps e between t0 u0 Hf0 Hs0 Ha0 Hnone)
    as (u1 & Hf1 & Hsame1 & (f & Hfa1 & Hrange & Hlu1)).
  assert (Hs1 : status u1 = "ACTIVE")
    by (destruct Hsame1 as (_ & _ & _ & _ & _ & Hst); congruence).
  assert (Hw1 : wrong_for bcrypt_compare u1 a1)
    by (apply (wrong_for_same u0 u1 a1 Hsame1);
        apply (wrong_for_same u u0 a1 Hsame0); exact Hw).
  assert (Hnf : newFails_of u1 = Z.min (f + 1) 255)
    by (unfold newFails_of; rewrite Hfa1; reflexivity).
  destruct (wrong_attempt_engages e a1 _ u1 Hf1 Hs1 (Hexp u1 Hf1) Hw1)
    as (t2 & u2 & Hstep & Hf2 & Hsame2 & Hfa2 & Hlu2); [lia |].
  exists u1, f, t2, u2. rewrite <- Hnf. repeat split; auto; lia.
Qed.

(** *** The token *)

Lemma signed_payloads_app (tr1 tr2 : list Event) :
  signed_payloads (tr1 ++ tr2) = signed_payloads tr1 ++ signed_payloads tr2.
Proof.
  induction tr1 as [|ev rest IH]; simpl; [reflexivity |].
  destruct ev as [X op]. destruct op; simpl; rewrite IH; reflexivity.
Qed.

Lemma success_inv (e pw : string) (w w' : World)
    (c : Z) (tok : string) (pu : PublicUser) :
  run' (login e pw) w = (Success c tok pu, w') ->
  exists u,
    find_user e (db w) = Some u
    /\ String.eqb (status u) "ACTIVE" = true
    /\ isLocked (clock w) (locked_until u) = false
    /\ bcrypt_compare pw (password_hash u) = true.
Proof.
  intro Hr.
  destruct (find_user e (db w)) as [u|] eqn:H.
  2:{ rewrite (login_unknown e pw w H) in Hr. discriminate. }
  exists u.
  destruct (String.eqb (status u) "ACTIVE") eqn:Hs.
  2:{ rewrite (login_inactive e pw w u H Hs) in Hr. discriminate. }
  destruct (isLocked (clock w) (locked_until u)) eqn:Hl.
  1:{ rewrite (login_locked e pw w u H Hs Hl) in Hr. discriminate. }
  destruct (bcrypt_compare pw (password_hash u)) eqn:Hp; [auto |].
  destruct (Z_le_gt_dec (MAX env) (newFails_of u)) as [Hm | Hm].
  - rewrite (login_wrong_locks e pw w u H Hs Hl Hp Hm) in Hr. discriminate.
  - rewrite (login_wrong_counts e pw w u H Hs Hl Hp) in Hr by lia. discriminate.
Qed.

(** C8 (as the code has it): a successful login answers 200 with the token
    [jwt.sign] makes of the payload [{ sub: String(id), profile }], the
    profile being the stored one, under [JWT_SECRET] and with [expiresIn] set
    to [JWT_EXPIRES_IN], or "1h" when that is unset or empty; the payload has no
    property called role.  [GET /auth/me] with a bearer token that verifies
    answers 200 with [{ ok: true, auth: { userId, profile } }], read from
    the [sub] and [profile] claims of the verified payload. *)
Theorem token_claims (e pw : string) (w w' : World)
    (c : Z) (tok : string) (pu : PublicUser) :
  run' (login e pw) w = (Success c tok pu, w') ->
  exists u payload expiresIn,
    find_user e (db w) = Some u
    /\ c = 200
    /\ pu = public_user u
    /\ payload = JObj [("sub", JStr (js_String (id u)));
                       ("profile", JStr (profile u))]
    /\ expiresIn = js_or_str (env_JWT_EXPIRES_IN env) "1h"
    /\ (env_JWT_EXPIRES_IN env = None -> expiresIn = "1h")
    /\ tok = jwt_sign payload (env_JWT_SECRET env) expiresIn (clock w)
    /\ signed_payloads (trace w')
       = signed_payloads (trace w) ++ [(payload, expiresIn)]
    /\ js_has payload "role" = false
    /\ (forall (rest : string) (now : Z) (claims : JsVal),
          jwt_verify (trim rest) (env_JWT_SECRET env) now = Some claims ->
          get_me env jwt_verify (Some (String.append "Bearer " rest)) now
          = mkResponse 200
              (JObj [("ok", JBool true);
                     ("auth", JObj [("userId", js_get claims "sub");
                                    ("profile", js_get claims "profile")])]))
    /\ (forall (now : Z) (claims : JsVal),
          jwt_verify (trim tok) (env_JWT_SECRET env) now = Some claims ->
          js_get claims "sub" = js_get payload "sub" ->
          js_get claims "profile" = js_get payload "profile" ->
          get_me env jwt_verify (Some (String.append "Bearer " tok)) now
          = mkResponse 200
              (JObj [("ok", JBool true);
                     ("auth", JObj [("userId", JStr (js_String (id u)));
                                    ("profile", JStr (profile u))])])).
Proof.
  intro Hr.
  destruct (success_inv e pw w w' c tok pu Hr) as (u & H & Hs & Hl & Hp).
  rewrite (login_success e pw w u H Hs Hl Hp) in Hr.
  injection Hr as <- <- <- <-.
  assert (Hme : forall (rest : string) (now : Z) (claims : JsVal),
             jwt_verify (trim rest) (env_JWT_SECRET env) now = Some claims ->
             get_me env jwt_verify (Some (String.append "Bearer " rest)) now
             = mkResponse 200
                 (JObj [("ok", JBool true);
                        ("auth", JObj [("userId", js_get claims "sub");
                                       ("profile", js_get claims "profile")])])).
  { intros rest now claims Hv. unfold get_me, requireAuth. simpl.
    rewrite Hv.
    replace (String.prefix EmptyString rest) with true
      by (destruct rest; reflexivity).
    reflexivity. }
  exists u. eexists _, _.
  split; [exact H |]. split; [reflexivity |]. split; [reflexivity |].
  split; [reflexivity |]. split; [reflexivity |].
  split; [intros ->; reflexivity |].
  split; [reflexivity |].
  split.
  { simpl. rewrite !signed_payloads_app. simpl.
    unfold gate_trace. rewrite !signed_payloads_app.
    destruct (locked_until u); destruct (needs_reset u); simpl;
      rewrite ?app_nil_r; reflexivity. }
  split; [reflexivity |].
  split; [exact Hme |].
  intros now claims Hv Hsub Hprof.
  rewrite (Hme _ now claims Hv), Hsub, Hprof. reflexivity.
Qed.

(** ** Further properties of [loginWithLock] *)

Local Abbreviation row_outcome' := (row_outcome env bcrypt_compare jwt_sign).
Local Abbreviation serve_each' := (serve_each env bcrypt_compare jwt_sign).

(** The program does to the table what [row_outcome] says of the row the
    SELECT returned. *)
Lemma serve_row_outcome (e : string) (a : Attempt) (t : Table) :
  serve' e a t
  = match find_user e t with
    | None => (Failure 401 invalidMsg, t)
    | Some u =>
        let (r, wr) := row_outcome' u (at_password a) (at_time a) in
        (r, write_table (id u) wr t)
    end.
Proof.
  destruct (find_user e t) as [u|] eqn:H; [| now apply serve_unknown].
  unfold row_outcome.
  destruct (String.eqb (status u) "ACTIVE") eqn:Hs; simpl;
    [| now apply (serve_inactive e a t u)].
  destruct (isLocked (at_time a) (locked_until u)) eqn:Hl;
    [now apply (serve_locked e a t u) |].
  destruct (bcrypt_compare (at_password a) (password_hash u)) eqn:Hp; simpl.
  - rewrite serve_run, (login_success e _ _ u) by assumption. simpl.
    destruct (needs_reset u); reflexivity.
  - destruct (MAX env <=? newFails_of u) eqn:Hm.
    + apply Z.leb_le in Hm. now apply (serve_wrong_locks e a t u).
    + apply Z.leb_gt in Hm. now apply (serve_wrong_counts e a t u).
Qed.

Lemma apply_write_same (wr : RowWrite) (u : User) : same_account u (apply_write wr u).
Proof. destruct wr; repeat split. Qed.

Lemma update_by_id_Forall2 (uid : Z) (f : User -> User) (t : Table)
    (R : User -> User -> Prop) :
  (forall r, In r t -> R r (if id r =? uid then f r else r)) ->
  Forall2 R t (update_by_id uid f t).
Proof.
  unfold update_by_id. induction t as [|h rest IH]; intro H; simpl.
  - constructor.
  - constructor; [apply H; now left | apply IH; intros r Hr; apply H; now right].
Qed.

Lemma Forall2_diag {A : Type} (R : A -> A -> Prop) (l : list A) :
  (forall x, In x l -> R x x) -> Forall2 R l l.
Proof.
  induction l as [|h rest IH]; intro H; constructor;
    [apply H; now left | apply IH; intros x Hx; apply H; now right].
Qed.

(** X3: a login attempt leaves every row of the table in its place, never
    changes the id, name, email, password hash, profile or status of any row,
    and changes nothing at all in the rows of other accounts; an attempt for
    an unknown email changes no row. *)
Theorem login_touches_one_account (e : string) (a : Attempt) (t : Table) :
  Forall2 (fun r r' =>
             same_account r r'
             /\ (find_user e t = None -> r' = r)
             /\ (forall u, find_user e t = Some u -> id r <> id u -> r' = r))
          t (snd (serve' e a t)).
Proof.
  rewrite serve_row_outcome.
  destruct (find_user e t) as [u|] eqn:H.
  - destruct (row_outcome' u (at_password a) (at_time a)) as [r wr]. simpl.
    assert (Hupd : Forall2 (fun r0 r' =>
                      same_account r0 r'
                      /\ (Some u = None -> r' = r0)
                      /\ (forall u0, Some u = Some u0 -> id r0 <> id u0 -> r' = r0))
                   t (update_by_id (id u) (apply_write wr) t)).
    { apply update_by_id_Forall2. intros r0 _.
      destruct (id r0 =? id u) eqn:Hid.
      - split; [apply apply_write_same |]. split; [discriminate |].
        intros u0 Hu0 Hne. injection Hu0 as <-.
        apply Z.eqb_eq in Hid. contradiction.
      - split; [apply same_account_refl | auto]. }
    destruct wr; try exact Hupd.
    apply Forall2_diag. intros x _. split; [apply same_account_refl | auto].
  - simpl. apply Forall2_diag. intros x _.
    split; [apply same_account_refl | auto].
Qed.

Lemma find_user_In (e : string) (t : Table) (u : User) :
  find_user e t = Some u -> In u t /\ email u = e.
Proof.
  intro H. apply find_some in H. destruct H as [Hin He].
  split; [exact Hin | now apply String.eqb_eq].
Qed.

Lemma unique_id_row (t : Table) (r u : User) :
  NoDup (map id t) -> In r t -> In u t -> id r = id u -> r = u.
Proof.
  induction t as [|h rest IH]; simpl; intros Hnd Hr Hu Hid; [contradiction |].
  inversion Hnd as [|? ? Hnotin Hnd']; subst.
  destruct Hr as [-> | Hr], Hu as [-> | Hu]; auto.
  - exfalso. apply Hnotin. rewrite Hid. now apply in_map.
  - exfalso. apply Hnotin. rewrite <- Hid. now apply in_map.
Qed.

Lemma update_by_id_ids (uid : Z) (f : User -> User) (t : Table) :
  (forall r, id (f r) = id r) ->
  map id (update_by_id uid f t) = map id t.
Proof.
  intro Hf. unfold update_by_id. rewrite map_map. apply map_ext.
  intro r. destruct (id r =? uid); [apply Hf | reflexivity].
Qed.

Lemma update_by_id_Forall (uid : Z) (f : User -> User) (t : Table)
    (P : User -> Prop) :
  Forall P t ->
  (forall r, In r t -> id r = uid -> P (f r)) ->
  Forall P (update_by_id uid f t).
Proof.
  unfold update_by_id. intros Hall Hf. apply Forall_forall.
  intros x Hx. apply in_map_iff in Hx. destruct Hx as (r & <- & Hr).
  destruct (id r =? uid) eqn:Hid.
  - apply Hf; [exact Hr | now apply Z.eqb_eq].
  - rewrite Forall_forall in Hall. now apply Hall.
Qed.

Lemma write_table_ids (uid : Z) (wr : RowWrite) (t : Table) :
  map id (write_table uid wr t) = map id t.
Proof.
  destruct wr; simpl; try reflexivity; apply update_by_id_ids; reflexivity.
Qed.

Lemma counter_ok_write (u : User) (pw : string) (now : Z) :
  counter_ok env u ->
  counter_ok env (apply_write (snd (row_outcome' u pw now)) u).
Proof.
  intros [Hrange Hlock]. unfold row_outcome.
  destruct (String.eqb (status u) "ACTIVE"); simpl; [| now split].
  destruct (isLocked now (locked_until u)); simpl; [now split |].
  destruct (bcrypt_compare pw (password_hash u)); simpl.
  - destruct (needs_reset u); simpl; [| now split].
    split; simpl; [lia | intro H; now contradiction H].
  - destruct (MAX env <=? newFails_of u) eqn:Hm; simpl.
    + apply Z.leb_le in Hm. unfold counter_ok. simpl.
      unfold newFails_of in *. split; [lia | intros _; exact Hm].
    + apply Z.leb_gt in Hm. unfold counter_ok. simpl.
      unfold newFails_of in *. split; [lia |].
      intro Hl. specialize (Hlock Hl). lia.
Qed.

Lemma serve_keeps_counters (e : string) (a : Attempt) (t : Table) :
  NoDup (map id t) ->
  Forall (counter_ok env) t ->
  NoDup (map id (snd (serve' e a t)))
  /\ Forall (counter_ok env) (snd (serve' e a t)).
Proof.
  intros Hnd Hall. rewrite serve_row_outcome.
  destruct (find_user e t) as [u|] eqn:H; [| now split].
  pose proof (counter_ok_write u (at_password a) (at_time a)) as Hw.
  destruct (row_outcome' u (at_password a) (at_time a)) as [r wr]. simpl in *.
  split; [now rewrite write_table_ids |].
  destruct (find_user_In e t u H) as [Hin _].
  assert (Hu : counter_ok env u) by (rewrite Forall_forall in Hall; now apply Hall).
  assert (Hupd : Forall (counter_ok env) (update_by_id (id u) (apply_write wr) t)).
  { apply update_by_id_Forall; [exact Hall |].
    intros r0 Hr0 Hid. rewrite (unique_id_row t r0 u Hnd Hr0 Hin Hid). now apply Hw. }
  destruct wr; simpl; auto.
Qed.

(** X5: in a table with one row per id where every counter lies between 0
    and 255 and every row that carries a [locked_until] has a counter at or
    above [MAX], any series of login requests, for any emails, passwords and
    times, leaves a table of which the same is true: no account is ever locked
    with fewer than [MAX] failures counted, and no counter leaves 0..255. *)
Theorem counters_stay_consistent (requests : list (string * Attempt)) (t : Table) :
  NoDup (map id t) ->
  Forall (counter_ok env) t ->
  NoDup (map id (snd (serve_each' requests t)))
  /\ Forall (counter_ok env) (snd (serve_each' requests t)).
Proof.
  revert t. induction requests as [|[e a] rest IH]; intros t Hnd Hall.
  - now split.
  - cbn [serve_each].
    destruct (serve_keeps_counters e a t Hnd Hall) as [Hnd1 Hall1].
    destruct (serve' e a t) as [r t1]. simpl in *.
    specialize (IH t1 Hnd1 Hall1).
    destruct (serve_each' rest t1) as [rs t2]. exact IH.
Qed.

(** X1: the right password on an unlocked ACTIVE account is answered 200
    with the public columns of the row, and afterwards the row counts no
    failure and carries no lock.  When there was nothing to reset (no failure
    counted, no [locked_until]) the request issues no UPDATE and the table is
    as it was. *)
Theorem success_resets_counters (e pw : string) (w : World) (u : User) :
  find_user e (db w) = Some u ->
  status u = "ACTIVE" ->
  isLocked (clock w) (locked_until u) = false ->
  bcrypt_compare pw (password_hash u) = true ->
  0 <= js_or0 (failed_attempts u) ->
  exists tok w' u',
    run' (login e pw) w = (Success 200 tok (public_user u), w')
    /\ find_user e (db w') = Some u'
    /\ same_account u u'
    /\ js_or0 (failed_attempts u') = 0
    /\ locked_until u' = None
    /\ (js_or0 (failed_attempts u) = 0 -> locked_until u = None ->
        db w' = db w
        /\ filter is_update (trace w') = filter is_update (trace w)).
Proof.
  intros H Hs Hl Hp Hf.
  assert (Hs' : String.eqb (status u) "ACTIVE" = true) by (rewrite Hs; reflexivity).
  pose proof (login_success e pw w u H Hs' Hl Hp) as Hrun. simpl in Hrun.
  unfold needs_reset in *.
  destruct (0 <? js_or0 (failed_attempts u)) eqn:Hpos.
  - eexists _, _, (reset_fails_and_lock u). split; [exact Hrun |]. simpl.
    split; [apply find_user_update; [apply email_reset | exact H] |].
    split; [repeat split |]. split; [reflexivity |]. split; [reflexivity |].
    apply Z.ltb_lt in Hpos. intros Hz. lia.
  - apply Z.ltb_ge in Hpos. simpl in Hrun.
    destruct (locked_until u) as [lu|] eqn:Hlu.
    + eexists _, _, (reset_fails_and_lock u). split; [exact Hrun |]. simpl.
      split; [apply find_user_update; [apply email_reset | exact H] |].
      split; [repeat split |]. split; [reflexivity |]. split; [reflexivity |].
      intros _ Hnone. discriminate.
    + eexists _, _, u. split; [exact Hrun |]. simpl.
      split; [exact H |]. split; [apply same_account_refl |].
      split; [lia |]. split; [exact Hlu |].
      intros _ _. split; [reflexivity |].
      rewrite !filter_app. simpl. now rewrite app_nil_r.
Qed.

Lemma serve_success_state (e : string) (a : Attempt) (t : Table) (u : User) :
  find_user e t = Some u ->
  status u = "ACTIVE" ->
  isLocked (at_time a) (locked_until u) = false ->
  bcrypt_compare (at_password a) (password_hash u) = true ->
  0 <= js_or0 (failed_attempts u) ->
  exists tok t' u',
    serve' e a t = (Success 200 tok (public_user u), t')
    /\ find_user e t' = Some u'
    /\ same_account u u'
    /\ js_or0 (failed_attempts u') = 0
    /\ locked_until u' = None.
Proof.
  intros H Hs Hl Hp Hf. rewrite serve_row_outcome, H. unfold row_outcome.
  rewrite Hs, Hl, Hp. simpl. unfold needs_reset.
  destruct (0 <? js_or0 (failed_attempts u)) eqn:Hpos; simpl.
  - eexists _, _, (reset_fails_and_lock u). split; [reflexivity |].
    split; [apply find_user_update; [apply email_reset | exact H] |].
    repeat split.
  - apply Z.ltb_ge in Hpos.
    destruct (locked_until u) as [lu|] eqn:Hlu; simpl.
    + eexists _, _, (reset_fails_and_lock u). split; [reflexivity |].
      split; [apply find_user_update; [apply email_reset | exact H] |].
      repeat split.
    + eexists _, _, u. split; [reflexivity |]. split; [exact H |].
      split; [apply same_account_refl |]. split; [lia | exact Hlu].
Qed.

(** X2: after a successful login the count starts again from nothing: of the
    next [MAX] wrong passwords all but the last are answered 401, and only the
    last engages the lock. *)
Theorem full_sequence_after_success
    (e : string) (a0 : Attempt) (firsts : list Attempt) (lastA : Attempt)
    (t : Table) (u : User) :
  find_user e t = Some u ->
  status u = "ACTIVE" ->
  isLocked (at_time a0) (locked_until u) = false ->
  bcrypt_compare (at_password a0) (password_hash u) = true ->
  0 <= js_or0 (failed_attempts u) ->
  Forall (wrong_for bcrypt_compare u) (firsts ++ [lastA]) ->
  Z.of_nat (List.length (firsts ++ [lastA])) = MAX env ->
  MAX env <= 255 ->
  exists tok t0 t',
    serve' e a0 t = (Success 200 tok (public_user u), t0)
    /\ serve_all' e (firsts ++ [lastA]) t0
       = (repeat (Failure 401 invalidMsg) (List.length firsts)
            ++ [Failure 423 justLockedMsg], t').
Proof.
  intros H Hs Hl Hp Hf Hw Hn Hc.
  destruct (serve_success_state e a0 t u H Hs Hl Hp Hf)
    as (tok & t0 & u0 & Hstep & Hf0 & Hsame & Hz & Hlu).
  rewrite length_app in Hn. cbn [List.length] in Hn.
  assert (Hs0 : status u0 = "ACTIVE")
    by (destruct Hsame as (_ & _ & _ & _ & _ & Hst); congruence).
  destruct (wrong_attempts_reach e firsts lastA t0 u0 Hf0 Hs0 Hlu)
    as (t' & u' & Hall & _); [| lia | exact Hc |].
  - eapply Forall_impl; [| exact Hw]. intros a Ha.
    now apply (wrong_for_same u u0 a Hsame).
  - exists tok, t0, t'. split; [exact Hstep | exact Hall].
Qed.

(** X21: attempts made while an account is locked neither count nor
    prolong the lock: any series of attempts that all arrive before
    [locked_until] is answered 423 throughout and leaves the table exactly as
    it was. *)
Theorem attempts_during_lock_change_nothing
    (e : string) (attempts : list Attempt) (t : Table) (u : User) (lu : Z) :
  find_user e t = Some u ->
  status u = "ACTIVE" ->
  locked_until u = Some lu ->
  Forall (fun a => at_time a < lu) attempts ->
  serve_all' e attempts t
  = (repeat (Failure 423 lockedMsg) (List.length attempts), t).
Proof.
  intros H Hs Hlu Hall.
  assert (Hs' : String.eqb (status u) "ACTIVE" = true) by (rewrite Hs; reflexivity).
  induction attempts as [|a rest IH]; [reflexivity |].
  inversion Hall as [|? ? Ha Hrest]; subst.
  cbn [serve_all List.length repeat].
  rewrite (serve_locked e a t u H Hs'), (IH Hrest); [reflexivity |].
  rewrite Hlu. now apply Z.ltb_lt.
Qed.

(** *** Requests for different accounts *)

Lemma find_user_other (e : string) (t : Table) (u : User) (uid : Z)
    (f : User -> User) :
  (forall x, email (f x) = email x) ->
  find_user e t = Some u ->
  id u <> uid ->
  find_user e (update_by_id uid f t) = Some u.
Proof.
  intros Hf. unfold find_user, update_by_id.
  induction t as [|h rest IH]; simpl; [discriminate |].
  destruct (String.eqb (email h) e) eqn:He.
  - intros Hu Hne. injection Hu as ->.
    destruct (id u =? uid) eqn:Hid; [apply Z.eqb_eq in Hid; contradiction |].
    simpl. now rewrite He.
  - intros Hu Hne. destruct (id h =? uid); simpl; rewrite ?Hf, He; auto.
Qed.

Lemma find_user_write_other (e : string) (t : Table) (u : User) (uid : Z)
    (wr : RowWrite) :
  find_user e t = Some u ->
  id u <> uid ->
  find_user e (write_table uid wr t) = Some u.
Proof.
  intros H Hne. destruct wr; simpl; auto;
    apply find_user_other; auto; intro x; reflexivity.
Qed.

Lemma update_by_id_comm (i j : Z) (f g : User -> User) (t : Table) :
  i <> j ->
  (forall r, id (f r) = id r) ->
  (forall r, id (g r) = id r) ->
  update_by_id i f (update_by_id j g t) = update_by_id j g (update_by_id i f t).
Proof.
  intros Hne Hf Hg. unfold update_by_id. rewrite !map_map. apply map_ext.
  intro r.
  destruct (id r =? j) eqn:Hj, (id r =? i) eqn:Hi;
    rewrite ?Hf, ?Hg, ?Hj, ?Hi; try reflexivity.
  apply Z.eqb_eq in Hj, Hi. congruence.
Qed.

Lemma write_table_comm (i j : Z) (wi wj : RowWrite) (t : Table) :
  i <> j ->
  write_table i wi (write_table j wj t) = write_table j wj (write_table i wi t).
Proof.
  intro Hne.
  destruct wi, wj; simpl; try reflexivity;
    apply update_by_id_comm; auto; intro r; reflexivity.
Qed.

(** X4: login attempts on two different accounts do not interfere: served in
    either order they get the same two answers and leave the same table. *)
Theorem logins_of_two_accounts_commute
    (e1 e2 : string) (a1 a2 : Attempt) (t : Table) (u1 u2 : User) :
  find_user e1 t = Some u1 ->
  find_user e2 t = Some u2 ->
  id u1 <> id u2 ->
  fst (serve' e1 a1 t) = fst (serve' e1 a1 (snd (serve' e2 a2 t)))
  /\ fst (serve' e2 a2 t) = fst (serve' e2 a2 (snd (serve' e1 a1 t)))
  /\ snd (serve' e2 a2 (snd (serve' e1 a1 t)))
     = snd (serve' e1 a1 (snd (serve' e2 a2 t))).
Proof.
  intros H1 H2 Hne.
  rewrite (serve_row_outcome e1 a1 t), (serve_row_outcome e2 a2 t), H1, H2.
  destruct (row_outcome' u1 (at_password a1) (at_time a1)) as [r1 wr1] eqn:Ho1.
  destruct (row_outcome' u2 (at_password a2) (at_time a2)) as [r2 wr2] eqn:Ho2.
  simpl.
  rewrite !serve_row_outcome.
  rewrite (find_user_write_other e1 t u1 (id u2) wr2 H1 Hne).
  rewrite (find_user_write_other e2 t u2 (id u1) wr1 H2) by congruence.
  rewrite Ho1, Ho2. simpl.
  split; [reflexivity | split; [reflexivity |]].
  apply write_table_comm. congruence.
Qed.

(** *** What one request does *)

Ltac effects_done :=
  repeat split; auto; try discriminate; try lia;
  try (intros X; now contradiction X).

(** X6: every login request starts with the one SELECT and issues no other;
    it compares at most one password and issues at most one UPDATE, and the
    table changes only if it issued one; it signs a token exactly when it
    succeeds; it answers 200, 401, 403 or 423, and 200 exactly when it
    succeeds. *)
Theorem login_effects_bounded (e pw : string) (w : World) :
  exists evs,
    trace (snd (run' (login e pw) w))
    = trace w ++ Called (SelectUserByEmail e) :: evs
    /\ filter is_select evs = []
    /\ (List.length (filter is_compare evs) <= 1)%nat
    /\ (List.length (filter is_update evs) <= 1)%nat
    /\ (filter is_update evs = [] -> db (snd (run' (login e pw) w)) = db w)
    /\ (signed_payloads evs <> [] <-> ok_of (fst (run' (login e pw) w)) = true)
    /\ In (statusCode_of (fst (run' (login e pw) w))) [200; 401; 403; 423]
    /\ (ok_of (fst (run' (login e pw) w)) = true
        <-> statusCode_of (fst (run' (login e pw) w)) = 200).
Proof.
  destruct (find_user e (db w)) as [u|] eqn:H.
  2:{ rewrite (login_unknown e pw w H). exists []. simpl.
      effects_done. }
  destruct (String.eqb (status u) "ACTIVE") eqn:Hs.
  2:{ rewrite (login_inactive e pw w u H Hs). exists []. simpl.
      effects_done. }
  destruct (isLocked (clock w) (locked_until u)) eqn:Hl.
  1:{ rewrite (login_locked e pw w u H Hs Hl). exists [Called DateNow]. simpl.
      effects_done. }
  destruct (bcrypt_compare pw (password_hash u)) eqn:Hp.
  - rewrite (login_success e pw w u H Hs Hl Hp). unfold gate_trace. simpl.
    eexists. split; [reflexivity |].
    destruct (locked_until u), (needs_reset u); simpl;
      effects_done.
  - destruct (Z_le_gt_dec (MAX env) (newFails_of u)) as [Hm | Hm].
    + rewrite (login_wrong_locks e pw w u H Hs Hl Hp Hm). unfold gate_trace. simpl.
      eexists. split; [reflexivity |].
      destruct (locked_until u); simpl;
        effects_done.
    + rewrite (login_wrong_counts e pw w u H Hs Hl Hp) by lia.
      unfold gate_trace. simpl.
      eexists. split; [reflexivity |].
      destruct (locked_until u); simpl;
        effects_done.
Qed.

(** *** Requests that overlap *)

Lemma Forall2_same_account_refl (t : Table) : Forall2 same_account t t.
Proof. apply Forall2_diag. intros x _. apply same_account_refl. Qed.

Lemma Forall2_same_account_trans (t1 t2 t3 : Table) :
  Forall2 same_account t1 t2 -> Forall2 same_account t2 t3 ->
  Forall2 same_account t1 t3.
Proof.
  intro H12. revert t3. induction H12 as [|x y l1 l2 Hxy _ IH]; intros t3 H23.
  - inversion H23. constructor.
  - inversion H23 as [|? z ? l3 Hyz Hrest]; subst.
    constructor; [eapply same_account_trans; eauto | now apply IH].
Qed.

Lemma handle_same_account {X : Type} (op : Op X) (w : World) :
  Forall2 same_account (db w) (db (snd (handle bcrypt_compare jwt_sign op w))).
Proof.
  destruct op; simpl; try apply Forall2_same_account_refl;
    apply update_by_id_Forall2; intros r _;
    destruct (id r =? uid); try apply same_account_refl; repeat split.
Qed.

Lemma step_same_account {A : Type} (p : Prog A) (w : World) :
  Forall2 same_account (db w) (db (snd (step bcrypt_compare jwt_sign p w))).
Proof.
  destruct p as [a | X op k]; simpl; [apply Forall2_same_account_refl |].
  pose proof (handle_same_account op w) as H.
  destruct (handle bcrypt_compare jwt_sign op w) as [x w1]. exact H.
Qed.

Lemma advance_same_account {A : Type} (ps : list (Prog A)) :
  forall (i : nat) (w : World),
    Forall2 same_account (db w)
            (db (snd (advance bcrypt_compare jwt_sign i ps w))).
Proof.
  induction ps as [|p rest IH]; intros i w;
    [destruct i; apply Forall2_same_account_refl |].
  destruct i as [|j]; simpl.
  - pose proof (step_same_account p w) as H.
    destruct (step bcrypt_compare jwt_sign p w) as [p1 w1]. exact H.
  - pose proof (IH j w) as H.
    destruct (advance bcrypt_compare jwt_sign j rest w) as [rest1 w1]. exact H.
Qed.

(** X22: however the operations of any number of requests are interleaved,
    and whatever time passes in between, every row stays in its place and
    keeps its id, name, email, password hash, profile and status: the store
    operations of [loginWithLock] write the failure counter and the lock and
    nothing else. *)
Theorem overlapping_requests_keep_identity {A : Type}
    (sched : list Action) (ps : list (Prog A)) (w : World) :
  Forall2 same_account (db w)
          (db (snd (exec bcrypt_compare jwt_sign sched ps w))).
Proof.
  revert ps w. induction sched as [|a rest IH]; intros ps w; simpl;
    [apply Forall2_same_account_refl |].
  assert (Hact : Forall2 same_account (db w)
                   (db (snd (act bcrypt_compare jwt_sign a ps w)))).
  { destruct a as [i | ms]; simpl;
      [apply advance_same_account | apply Forall2_same_account_refl]. }
  destruct (act bcrypt_compare jwt_sign a ps w) as [ps1 w1]. simpl in Hact.
  eapply Forall2_same_account_trans; [exact Hact | apply IH].
Qed.

(** ** [requireAuth], [requireAdmin] and the routes *)

Lemma prefix_split (p s : string) :
  String.prefix p s = true ->
  s = String.append p (substring_from (String.length p) s).
Proof.
  revert s. induction p as [|a p IH]; intros s H; simpl.
  - reflexivity.
  - destruct s as [|b s]; simpl in H; [discriminate |].
    destruct (ascii_dec a b) as [-> | _]; [| discriminate].
    rewrite <- (IH s H). reflexivity.
Qed.

Lemma prefix_append (p s : string) : String.prefix p (String.append p s) = true.
Proof.
  induction p as [|a p IH]; simpl.
  - destruct s; reflexivity.
  - destruct (ascii_dec a a) as [_ | Hne]; [exact IH | now contradiction Hne].
Qed.

Lemma append_cancel (p a b : string) :
  String.append p a = String.append p b -> a = b.
Proof.
  induction p as [|c p IH]; simpl; intro H; [exact H |].
  injection H as H. now apply IH.
Qed.

Lemma substring_from_append (p s : string) :
  substring_from (String.length p) (String.append p s) = s.
Proof. induction p as [|a p IH]; simpl; [reflexivity | exact IH]. Qed.

Local Abbreviation requireAuth' := (requireAuth env jwt_verify).

(** [requireAuth], case by case. *)
Lemma requireAuth_cases (h : option string) (now : Z) :
  (requireAuth' h now = Responded missing_token
   /\ forall rest, h <> Some (String.append "Bearer " rest))
  \/ (exists rest,
        h = Some (String.append "Bearer " rest)
        /\ jwt_verify (trim rest) (env_JWT_SECRET env) now = None
        /\ requireAuth' h now = Responded bad_token)
  \/ (exists rest claims,
        h = Some (String.append "Bearer " rest)
        /\ jwt_verify (trim rest) (env_JWT_SECRET env) now = Some claims
        /\ requireAuth' h now = Next (auth_of claims)).
Proof.
  unfold requireAuth.
  destruct h as [auth|].
  2:{ left. split; [reflexivity | discriminate]. }
  destruct (String.prefix "Bearer " auth) eqn:Hpre.
  - apply prefix_split in Hpre.
    set (rest := substring_from (String.length "Bearer ") auth) in *.
    assert (Hlen : (String.length auth =? 0)%nat = false)
      by (rewrite Hpre; reflexivity).
    rewrite Hlen. simpl negb. cbv iota.
    destruct (jwt_verify (trim rest) (env_JWT_SECRET env) now) as [claims|] eqn:Hv.
    + right. right. exists rest, claims.
      split; [now rewrite Hpre at 1 |]. split; [exact Hv | reflexivity].
    + right. left. exists rest.
      split; [now rewrite Hpre at 1 |]. split; [exact Hv | reflexivity].
  - left. rewrite andb_false_r. split; [reflexivity |].
    intros rest Heq.
    assert (Hauth : auth = String.append "Bearer " rest) by congruence.
    rewrite Hauth, prefix_append in Hpre. discriminate.
Qed.

(** X7: [GET /auth/me] answers 200 exactly when the header is ["Bearer "]
    followed by a token that [jwt.verify] accepts once trimmed; the body is then
    [{ ok: true, auth: { userId, profile } }] from the verified claims.
    Every other request is answered 401: "Token ausente." when the header is
    missing or does not start with ["Bearer "], "Token inválido ou expirado."
    when the token does not verify. *)
Theorem me_requires_verified_token (h : option string) (now : Z) :
  (res_status (get_me env jwt_verify h now) = 200
   <-> exists rest claims,
         h = Some (String.append "Bearer " rest)
         /\ jwt_verify (trim rest) (env_JWT_SECRET env) now = Some claims)
  /\ (forall rest claims,
        h = Some (String.append "Bearer " rest) ->
        jwt_verify (trim rest) (env_JWT_SECRET env) now = Some claims ->
        get_me env jwt_verify h now
        = mkResponse 200 (JObj [("ok", JBool true); ("auth", auth_of claims)]))
  /\ (forall rest,
        h = Some (String.append "Bearer " rest) ->
        jwt_verify (trim rest) (env_JWT_SECRET env) now = None ->
        get_me env jwt_verify h now = bad_token)
  /\ ((forall rest, h <> Some (String.append "Bearer " rest)) ->
      get_me env jwt_verify h now = missing_token)
  /\ In (res_status (get_me env jwt_verify h now)) [200; 401].
Proof.
  unfold get_me.
  destruct (requireAuth_cases h now)
    as [[Hr Hno] | [(rest & Hh & Hv & Hr) | (rest & claims & Hh & Hv & Hr)]];
    rewrite Hr; simpl.
  - split; [split; [discriminate | intros (rest & claims & Hh & _); now elim (Hno rest)] |].
    split; [intros rest claims Hh; now elim (Hno rest) |].
    split; [intros rest Hh; now elim (Hno rest) |].
    split; [reflexivity | auto].
  - split; [split; [discriminate |] |].
    { intros (rest' & claims & Hh' & Hv').
      assert (rest' = rest) by (simpl in *; congruence).
      congruence. }
    split.
    { intros rest' claims Hh' Hv'.
      assert (rest' = rest) by (simpl in *; congruence).
      congruence. }
    split; [reflexivity |]. split; [| auto].
    intro Hno. now elim (Hno rest).
  - split; [split; [intros _; exists rest, claims; split; assumption | reflexivity] |].
    split.
    { intros rest' claims' Hh' Hv'.
      assert (rest' = rest) by (simpl in *; congruence).
      congruence. }
    split.
    { intros rest' Hh' Hv'.
      assert (rest' = rest) by (simpl in *; congruence).
      congruence. }
    split; [| auto]. intro Hno. now elim (Hno rest).
Qed.

(** *** White space around the token *)

Lemma trimStart_length (s : string) :
  (String.length (trimStart s) <= String.length s)%nat.
Proof.
  induction s as [|c s IH]; simpl; [lia |].
  destruct (is_js_space c); simpl; lia.
Qed.

Lemma trimEnd_length (s : string) :
  (String.length (trimEnd s) <= String.length s)%nat.
Proof.
  induction s as [|c s IH]; simpl; [lia |].
  destruct (trimEnd s); [destruct (is_js_space c) |]; simpl in *; lia.
Qed.

Lemma trimStart_pad (pad s : string) :
  all_space pad = true -> trimStart (String.append pad s) = trimStart s.
Proof.
  induction pad as [|c pad IH]; simpl; intro H; [reflexivity |].
  apply andb_prop in H. destruct H as [Hc Hpad]. rewrite Hc. now apply IH.
Qed.

Lemma trimStart_all_space (pad : string) :
  all_space pad = true -> trimStart pad = EmptyString.
Proof.
  induction pad as [|c pad IH]; simpl; intro H; [reflexivity |].
  apply andb_prop in H. destruct H as [Hc Hpad]. rewrite Hc. now apply IH.
Qed.

Lemma trimEnd_all_space (pad : string) :
  all_space pad = true -> trimEnd pad = EmptyString.
Proof.
  induction pad as [|c pad IH]; simpl; intro H; [reflexivity |].
  apply andb_prop in H. destruct H as [Hc Hpad]. now rewrite (IH Hpad), Hc.
Qed.

Lemma trimEnd_pad (s pad : string) :
  all_space pad = true -> trimEnd (String.append s pad) = trimEnd s.
Proof.
  intro H. induction s as [|c s IH]; simpl.
  - now apply trimEnd_all_space.
  - now rewrite IH.
Qed.

(** A string that [trim] leaves alone is empty or starts with a character
    that is not white space, and [trimEnd] leaves it alone too. *)
Lemma trim_fixed (s : string) :
  trim s = s ->
  trimEnd s = s
  /\ match s with
     | EmptyString => True
     | String c _ => is_js_space c = false
     end.
Proof.
  unfold trim. intro H.
  destruct s as [|c s]; [split; [reflexivity | exact I] |].
  simpl in H. destruct (is_js_space c) eqn:Hc.
  - exfalso.
    pose proof (trimEnd_length (trimStart s)) as H1.
    pose proof (trimStart_length s) as H2.
    rewrite H in H1. simpl in H1. lia.
  - split; [exact H | reflexivity].
Qed.

Lemma trim_padded (pad tok pad' : string) :
  all_space pad = true ->
  all_space pad' = true ->
  trim tok = tok ->
  trim (String.append pad (String.append tok pad')) = tok.
Proof.
  intros Hpad Hpad' Hfix. unfold trim. rewrite (trimStart_pad _ _ Hpad).
  destruct (trim_fixed tok Hfix) as [Hend Hfirst].
  destruct tok as [|c tok].
  - simpl. now rewrite (trimStart_all_space pad' Hpad').
  - change (String.append (String c tok) pad')
      with (String c (String.append tok pad')).
    cbn [trimStart]. rewrite Hfirst.
    change (String c (String.append tok pad'))
      with (String.append (String c tok) pad').
    rewrite (trimEnd_pad _ _ Hpad'). exact Hend.
Qed.

(** X8: white space between ["Bearer "] and the token, and after the token,
    makes no difference to [requireAuth]: the padded header is treated exactly
    as the plain one. *)
Theorem bearer_padding_ignored (pad tok pad' : string) (now : Z) :
  all_space pad = true ->
  all_space pad' = true ->
  trim tok = tok ->
  requireAuth' (Some (String.append "Bearer "
                        (String.append pad (String.append tok pad')))) now
  = requireAuth' (Some (String.append "Bearer " tok)) now.
Proof.
  intros Hpad Hpad' Hfix. unfold requireAuth.
  rewrite !prefix_append, !substring_from_append.
  rewrite (trim_padded pad tok pad' Hpad Hpad' Hfix), Hfix.
  reflexivity.
Qed.

(** *** The admin guard *)

Local Abbreviation admin_guard' := (admin_guard env jwt_verify).

Lemma requireAdmin_auth_of (claims : JsVal) :
  requireAdmin (auth_of claims)
  = if js_is_string (js_get claims "profile") "ADMIN"
    then Next (auth_of claims)
    else Responded (mkResponse 403 (message_body "Acesso negado.")).
Proof.
  unfold requireAdmin, auth_of. simpl.
  destruct (js_is_string (js_get claims "profile") "ADMIN"); reflexivity.
Qed.

Lemma js_is_string_spec (v : JsVal) (s : string) :
  js_is_string v s = true <-> v = JStr s.
Proof.
  destruct v; simpl; split; try discriminate.
  - intro H. apply String.eqb_eq in H. now subst.
  - intro H. injection H as ->. apply String.eqb_refl.
Qed.

(** The guard of the admin routes, case by case. *)
Lemma admin_guard_cases (h : option string) (now : Z) :
  (admin_guard' h now = requireAuth' h now
   /\ exists r, requireAuth' h now = Responded r /\ res_status r = 401)
  \/ (exists rest claims,
        h = Some (String.append "Bearer " rest)
        /\ jwt_verify (trim rest) (env_JWT_SECRET env) now = Some claims
        /\ js_get claims "profile" <> JStr "ADMIN"
        /\ admin_guard' h now
           = Responded (mkResponse 403 (message_body "Acesso negado.")))
  \/ (exists rest claims,
        h = Some (String.append "Bearer " rest)
        /\ jwt_verify (trim rest) (env_JWT_SECRET env) now = Some claims
        /\ js_get claims "profile" = JStr "ADMIN"
        /\ admin_guard' h now = Next (auth_of claims)).
Proof.
  unfold admin_guard.
  destruct (requireAuth_cases h now)
    as [[Hr Hno] | [(rest & Hh & Hv & Hr) | (rest & claims & Hh & Hv & Hr)]];
    rewrite Hr.
  - left. split; [reflexivity |]. eexists. split; reflexivity.
  - left. split; [reflexivity |]. eexists. split; reflexivity.
  - right. rewrite requireAdmin_auth_of.
    destruct (js_is_string (js_get claims "profile") "ADMIN") eqn:Hadm.
    + right. exists rest, claims. apply js_is_string_spec in Hadm. auto.
    + left. exists rest, claims. repeat split; auto.
      intro Heq. apply js_is_string_spec in Heq. congruence.
Qed.

(** X9: the guard of the admin routes lets a request through exactly when
    its bearer token verifies and the verified claims carry the profile
    ["ADMIN"].  A request whose token is missing or does not verify gets the
    401 of [requireAuth], never a 403; a verified token with any other profile
    gets 403 "Acesso negado.". *)
Theorem admin_guard_decides (h : option string) (now : Z) :
  ((exists auth, admin_guard' h now = Next auth)
   <-> exists rest claims,
         h = Some (String.append "Bearer " rest)
         /\ jwt_verify (trim rest) (env_JWT_SECRET env) now = Some claims
         /\ js_get claims "profile" = JStr "ADMIN")
  /\ (forall r, requireAuth' h now = Responded r ->
                admin_guard' h now = Responded r /\ res_status r = 401)
  /\ (forall rest claims,
        h = Some (String.append "Bearer " rest) ->
        jwt_verify (trim rest) (env_JWT_SECRET env) now = Some claims ->
        js_get claims "profile" <> JStr "ADMIN" ->
        admin_guard' h now
        = Responded (mkResponse 403 (message_body "Acesso negado."))).
Proof.
  destruct (admin_guard_cases h now)
    as [(Hg & r0 & Hr0 & Hst) | [(rest & claims & Hh & Hv & Hna & Hg)
                                | (rest & claims & Hh & Hv & Hadm & Hg)]].
  - split; [split |].
    + intros [auth Ha]. rewrite Hg, Hr0 in Ha. discriminate.
    + intros (rest & claims & Hh & Hv & _).
      destruct (requireAuth_cases h now)
        as [[_ Hno] | [(rest' & Hh' & Hv' & _) | (rest' & claims' & _ & _ & Hr')]].
      * now elim (Hno rest).
      * assert (rest' = rest) by (simpl in *; congruence). congruence.
      * rewrite Hr0 in Hr'. discriminate.
    + split.
      * intros r Hr. rewrite Hg. split; [exact Hr | congruence].
      * intros rest claims Hh Hv _.
        destruct (requireAuth_cases h now)
          as [[_ Hno] | [(rest' & Hh' & Hv' & _) | (rest' & claims' & _ & _ & Hr')]].
        -- now elim (Hno rest).
        -- assert (rest' = rest) by (simpl in *; congruence). congruence.
        -- rewrite Hr0 in Hr'. discriminate.
  - assert (Hreq : requireAuth' h now = Next (auth_of claims)).
    { destruct (requireAuth_cases h now)
        as [[_ Hno] | [(rest' & Hh' & Hv' & _) | (rest' & claims' & Hh' & Hv' & Hr')]].
      - now elim (Hno rest).
      - assert (rest' = rest) by (simpl in *; congruence). congruence.
      - assert (rest' = rest) by (simpl in *; congruence). congruence. }
    split; [split |].
    + intros [auth Ha]. rewrite Hg in Ha. discriminate.
    + intros (rest' & claims' & Hh' & Hv' & Hadm).
      assert (rest' = rest) by (simpl in *; congruence). congruence.
    + split.
      * intros r Hr. rewrite Hreq in Hr. discriminate.
      * intros; exact Hg.
  - assert (Hreq : requireAuth' h now = Next (auth_of claims)).
    { destruct (requireAuth_cases h now)
        as [[_ Hno] | [(rest' & Hh' & Hv' & _) | (rest' & claims' & Hh' & Hv' & Hr')]].
      - now elim (Hno rest).
      - assert (rest' = rest) by (simpl in *; congruence). congruence.
      - assert (rest' = rest) by (simpl in *; congruence). congruence. }
    split; [split |].
    + intros _. exists rest, claims. auto.
    + intros _. eexists. exact Hg.
    + split.
      * intros r Hr. rewrite Hreq in Hr. discriminate.
      * intros rest' claims' Hh' Hv' Hna.
        assert (rest' = rest) by (simpl in *; congruence). congruence.
Qed.

(** X10: the token of a successful login, sent back as a bearer token,
    passes the guard of the admin routes exactly when the account's stored
    profile is ["ADMIN"]; the token of any other account is answered 403.
    ([jwt.verify] is taken to give back the profile that was signed.) *)
Theorem login_token_at_admin_guard
    (e pw : string) (w w' : World) (c : Z) (tok : string) (pu : PublicUser)
    (now : Z) (claims : JsVal) :
  run' (login e pw) w = (Success c tok pu, w') ->
  jwt_verify (trim tok) (env_JWT_SECRET env) now = Some claims ->
  js_get claims "profile" = JStr (pu_profile pu) ->
  exists u,
    find_user e (db w) = Some u
    /\ pu_profile pu = profile u
    /\ ((exists auth, admin_guard' (Some (String.append "Bearer " tok)) now = Next auth)
        <-> profile u = "ADMIN")
    /\ (profile u <> "ADMIN" ->
        admin_guard' (Some (String.append "Bearer " tok)) now
        = Responded (mkResponse 403 (message_body "Acesso negado."))).
Proof.
  intros Hr Hv Hprof.
  destruct (success_inv e pw w w' c tok pu Hr) as (u & H & Hs & Hl & Hp).
  rewrite (login_success e pw w u H Hs Hl Hp) in Hr.
  injection Hr as <- <- <- <-. simpl in Hprof.
  exists u. split; [exact H |]. split; [reflexivity |].
  unfold admin_guard, requireAuth.
  rewrite prefix_append, substring_from_append.
  cbn [String.length Nat.eqb String.append negb andb].
  rewrite Hv. fold (auth_of claims).
  rewrite requireAdmin_auth_of, Hprof. simpl.
  destruct (String.eqb (profile u) "ADMIN") eqn:Hadm.
  - apply String.eqb_eq in Hadm. split; [split; eauto |]. congruence.
  - apply String.eqb_neq in Hadm.
    split; [split; [intros [auth Ha]; discriminate | contradiction] |].
    reflexivity.
Qed.

Lemma login_result (e pw : string) (w : World) :
  fst (run' (login e pw) w)
  = match find_user e (db w) with
    | None => Failure 401 invalidMsg
    | Some u => fst (row_outcome' u pw (clock w))
    end.
Proof.
  destruct (find_user e (db w)) as [u|] eqn:H;
    [| now rewrite (login_unknown e pw w H)].
  unfold row_outcome.
  destruct (String.eqb (status u) "ACTIVE") eqn:Hs;
    [| now rewrite (login_inactive e pw w u H Hs)].
  destruct (isLocked (clock w) (locked_until u)) eqn:Hl;
    [now rewrite (login_locked e pw w u H Hs Hl) |].
  destruct (bcrypt_compare pw (password_hash u)) eqn:Hp.
  - now rewrite (login_success e pw w u H Hs Hl Hp).
  - destruct (MAX env <=? newFails_of u) eqn:Hm.
    + apply Z.leb_le in Hm. now rewrite (login_wrong_locks e pw w u H Hs Hl Hp Hm).
    + apply Z.leb_gt in Hm. now rewrite (login_wrong_counts e pw w u H Hs Hl Hp Hm).
Qed.

(** The handler of [POST /auth/login], when no collaborator fails. *)
Lemma handler_response_shape (parsed : option (string * string)) (w : World) :
  let resp := fst (run' (post_login env parsed) w) in
  ((exists msg, res_body resp = message_body msg
                /\ In (res_status resp) [400; 401; 403; 423])
   \/ (exists e pw tok u,
         parsed = Some (e, pw)
         /\ find_user e (db w) = Some u
         /\ res_status resp = 200
         /\ res_body resp
            = JObj [("token", JStr tok);
                    ("user", JObj [("id", JNum (id u)); ("name", JStr (name u));
                                   ("email", JStr (email u));
                                   ("profile", JStr (profile u))])]))
  /\ js_has (res_body resp) "password_hash" = false
  /\ js_has (js_get (res_body resp) "user") "password_hash" = false
  /\ (parsed = None ->
      run' (post_login env parsed) w
      = (mkResponse 400 (message_body "Dados inválidos."), w)).
Proof.
  destruct parsed as [[e pw]|]; cbv zeta.
  2:{ simpl. split; [left; eexists; split; [reflexivity | simpl; auto] |].
      repeat split. }
  unfold post_login. rewrite run_bind.
  pose proof (login_result e pw w) as Hres.
  destruct (run' (login e pw) w) as [r w1]. simpl in Hres. subst r.
  destruct (find_user e (db w)) as [u|] eqn:H.
  2:{ simpl. split; [left; eexists; split; [reflexivity | simpl; auto] |].
      repeat split; discriminate. }
  unfold row_outcome.
  destruct (String.eqb (status u) "ACTIVE"); simpl.
  2:{ split; [left; eexists; split; [reflexivity | simpl; auto] |].
      repeat split; discriminate. }
  destruct (isLocked (clock w) (locked_until u)); simpl.
  1:{ split; [left; eexists; split; [reflexivity | simpl; auto] |].
      repeat split; discriminate. }
  destruct (bcrypt_compare pw (password_hash u)); simpl.
  - split; [right; exists e, pw; eexists _, u;
             split; [reflexivity | split; [exact H | split; reflexivity]] |].
    repeat split; discriminate.
  - destruct (MAX env <=? newFails_of u); simpl;
      (split; [left; eexists; split; [reflexivity | simpl; auto] |]);
      repeat split; discriminate.
Qed.

(** *** The route with its limiters and its error path *)

Variable fails : forall X : Type, Op X -> World -> bool.
Variable limit_body : JsVal.

Local Abbreviation run_or_throw' := (run_or_throw bcrypt_compare jwt_sign fails).
Local Abbreviation login_route' :=
  (login_route env bcrypt_compare jwt_sign fails limit_body).

(** A request that ends without an exception did what it does when nothing
    fails. *)
Lemma run_or_throw_some {A : Type} (p : Prog A) :
  forall (w w' : World) (a : A),
    run_or_throw' p w = (Some a, w') -> run' p w = (a, w').
Proof.
  induction p as [a0 | X op k IH]; intros w w' a H; simpl in *.
  - injection H as -> ->. reflexivity.
  - destruct (fails X op w); [discriminate |].
    destruct (handle bcrypt_compare jwt_sign op w) as [x w1].
    now apply IH.
Qed.


(** ** [users.service.js] and [users.routes.js] *)

Variable bcrypt_hash : string -> string.
Variable default_failed_attempts : option Z.
Variable default_locked_until : option Z.

Local Abbreviation createUser' :=
  (createUser bcrypt_hash default_failed_attempts default_locked_until).

Lemma find_user_none_iff (e : string) (t : Table) :
  find_user e t = None <-> ~ In e (map email t).
Proof.
  unfold find_user. induction t as [|h rest IH]; simpl.
  - split; auto.
  - destruct (String.eqb (email h) e) eqn:He.
    + apply String.eqb_eq in He. split; [discriminate | intro H; elim H; now left].
    + apply String.eqb_neq in He. rewrite IH. split.
      * intros Hn [Hh | Hin]; [congruence | now apply Hn].
      * intros Hn Hin. apply Hn. now right.
Qed.

Lemma find_user_app_new (e : string) (t : Table) (row : User) :
  find_user e t = None -> email row = e -> find_user e (t ++ [row]) = Some row.
Proof.
  unfold find_user. intros Hnone He.
  induction t as [|h rest IH]; simpl in *.
  - subst e. now rewrite String.eqb_refl.
  - destruct (String.eqb (email h) e); [discriminate | now apply IH].
Qed.

Lemma getUserById_app_new (uid : Z) (t : Table) (row : User) :
  ~ In uid (map id t) -> id row = uid ->
  getUserById uid (t ++ [row]) = Some (view_of row).
Proof.
  unfold getUserById. intros Hnew Hid.
  induction t as [|h rest IH]; simpl in *.
  - subst uid. now rewrite Z.eqb_refl.
  - destruct (id h =? uid) eqn:Hh.
    + apply Z.eqb_eq in Hh. elim Hnew. now left.
    + apply IH. intro Hin. apply Hnew. now right.
Qed.

(** X12: [createUser] refuses an email the table already holds with 409 and
    leaves the table alone; otherwise it appends exactly one row and touches
    no other.  Either way a table in which no two rows share an email stays
    one. *)
Theorem createUser_keeps_emails_unique (input : NewUser) (insertId : Z) (t : Table) :
  (In (nu_email input) (map email t) ->
   createUser' input insertId t = (SFail 409 "E-mail já cadastrado.", t))
  /\ (~ In (nu_email input) (map email t) ->
      exists row,
        snd (createUser' input insertId t) = t ++ [row]
        /\ id row = insertId
        /\ email row = nu_email input
        /\ status row = "ACTIVE"
        /\ password_hash row = bcrypt_hash (nu_password input))
  /\ (NoDup (map email t) ->
      NoDup (map email (snd (createUser' input insertId t)))).
Proof.
  unfold createUser. rewrite select_by_email_find.
  destruct (find_user (nu_email input) t) as [u|] eqn:H.
  - assert (Hin : In (nu_email input) (map email t)).
    { destruct (find_user_In _ _ _ H) as [Hu He]. rewrite <- He. now apply in_map. }
    split; [reflexivity |]. split; [intro Hno; now elim Hno | auto].
  - pose proof (proj1 (find_user_none_iff _ _) H) as Hno.
    split; [intro Hin; now elim Hno |].
    split; [intros _; eexists; simpl; repeat split |].
    intro Hnd. simpl. rewrite map_app. simpl.
    apply NoDup_app; [exact Hnd | repeat constructor; auto |].
    intros x Hx [<- | []]. now elim Hno.
Qed.

(** X13: an account just created can log in: when the email was free and
    the id is new, [createUser] answers 201 with the new row, ACTIVE, and a
    login with the same email and password succeeds and reports that id, name,
    email and profile.  ([bcrypt.compare] is taken to accept a password
    against its own [bcrypt.hash], and the schema to create rows that are not
    locked.) *)
Theorem created_user_can_login
    (input : NewUser) (insertId : Z) (t : Table) (a : Attempt) :
  ~ In (nu_email input) (map email t) ->
  ~ In insertId (map id t) ->
  bcrypt_compare (nu_password input) (bcrypt_hash (nu_password input)) = true ->
  isLocked (at_time a) default_locked_until = false ->
  at_password a = nu_password input ->
  fst (createUser' input insertId t)
  = SOk 201 (Some (mkUserView insertId (nu_name input) (nu_email input)
                              (nu_profile input) "ACTIVE"))
  /\ exists tok,
       fst (serve' (nu_email input) a (snd (createUser' input insertId t)))
       = Success 200 tok
           (mkPublicUser insertId (nu_name input) (nu_email input)
                         (nu_profile input)).
Proof.
  intros Hno Hnew Hrt Hl Hpw.
  apply find_user_none_iff in Hno.
  unfold createUser. rewrite select_by_email_find, Hno. simpl.
  set (row := mkUser insertId (nu_name input) (nu_email input)
                     (bcrypt_hash (nu_password input)) (nu_profile input)
                     "ACTIVE" default_failed_attempts default_locked_until).
  split.
  - now rewrite (getUserById_app_new insertId t row Hnew eq_refl).
  - rewrite serve_row_outcome.
    rewrite (find_user_app_new (nu_email input) t row Hno eq_refl).
    unfold row_outcome. simpl. rewrite Hl, Hpw, Hrt. simpl.
    eexists. reflexivity.
Qed.

Lemma set_column_credentials (u : User) (kv : string * string) :
  same_credentials u (set_column u kv).
Proof.
  destruct kv as [key v]. unfold set_column.
  destruct (String.eqb key "name"); [repeat split |].
  destruct (String.eqb key "email"); [repeat split |].
  destruct (String.eqb key "profile"); [repeat split |].
  destruct (String.eqb key "status"); repeat split.
Qed.

Lemma set_columns_credentials (fields : list (string * string)) (u : User) :
  same_credentials u (set_columns fields u).
Proof.
  unfold set_columns. revert u.
  induction fields as [|kv rest IH]; intro u; simpl; [repeat split |].
  destruct (set_column_credentials u kv) as (H1 & H2 & H3 & H4).
  destruct (IH (set_column u kv)) as (K1 & K2 & K3 & K4).
  repeat split; congruence.
Qed.

(** What the SET clause built from a payload makes of a row. *)
Lemma set_columns_update_fields (payload : list (string * string)) (u : User) :
  set_columns (update_fields payload) u
  = mkUser (id u) (chosen payload "name" (name u))
           (chosen payload "email" (email u)) (password_hash u)
           (chosen payload "profile" (profile u))
           (chosen payload "status" (status u))
           (failed_attempts u) (locked_until u).
Proof.
  unfold update_fields, chosen, set_columns. simpl.
  destruct (payload_get payload "name"), (payload_get payload "email"),
    (payload_get payload "profile"), (payload_get payload "status");
    destruct u; reflexivity.
Qed.

Lemma getUserById_update (uid : Z) (f : User -> User) (t : Table) (u : User) :
  (forall r, id (f r) = id r) ->
  find (fun r => id r =? uid) t = Some u ->
  getUserById uid (update_by_id uid f t) = Some (view_of (f u)).
Proof.
  intro Hf. unfold getUserById, update_by_id.
  induction t as [|h rest IH]; simpl; [discriminate |].
  destruct (id h =? uid) eqn:Hh.
  - intro H. injection H as ->. rewrite Hf, Hh. reflexivity.
  - intro H. rewrite Hh. now apply IH.
Qed.

(** X14: [updateUser] answers 404 for an id the table does not hold and
    changes nothing then.  For an id it holds it answers 200 with the row as it
    is after the update: each of name, email, profile and status that the
    payload names has the payload's value, the others the value they had; a
    payload that names none of the four leaves the table as it was. *)
Theorem updateUser_applies_payload
    (uid : Z) (payload : list (string * string)) (t : Table) :
  (getUserById uid t = None ->
   updateUser uid payload t = (SFail 404 "Usuário não encontrado.", t))
  /\ (forall current,
        getUserById uid t = Some current ->
        fst (updateUser uid payload t)
        = SOk 200 (Some (mkUserView (uv_id current)
                           (chosen payload "name" (uv_name current))
                           (chosen payload "email" (uv_email current))
                           (chosen payload "profile" (uv_profile current))
                           (chosen payload "status" (uv_status current)))))
  /\ (payload_get payload "name" = None ->
      payload_get payload "email" = None ->
      payload_get payload "profile" = None ->
      payload_get payload "status" = None ->
      snd (updateUser uid payload t) = t).
Proof.
  unfold updateUser.
  split; [intros ->; reflexivity |]. split.
  - intros current Hcur. rewrite Hcur.
    unfold getUserById in Hcur.
    destruct (find (fun u => id u =? uid) t) as [u|] eqn:Hfind; [| discriminate].
    injection Hcur as <-.
    destruct (update_fields payload) as [|kv rest] eqn:Hfields.
    + simpl. pose proof (set_columns_update_fields payload u) as Hset.
      rewrite Hfields in Hset. unfold set_columns in Hset. simpl in Hset.
      rewrite Hset at 1. reflexivity.
    + cbn [fst]. rewrite (getUserById_update uid _ t u); [| | exact Hfind].
      * rewrite <- Hfields, set_columns_update_fields. reflexivity.
      * intro r. apply (set_columns_credentials (kv :: rest) r).
  - intros H1 H2 H3 H4.
    assert (Hnil : update_fields payload = [])
      by (unfold update_fields; simpl; now rewrite H1, H2, H3, H4).
    rewrite Hnil. destruct (getUserById uid t); reflexivity.
Qed.

(** X15: [updateUser] never changes the id, the password hash, the failure
    counter or the lock of any row, whatever keys the payload holds, and it
    leaves the rows of every other id exactly as they were. *)
Theorem updateUser_keeps_credentials
    (uid : Z) (payload : list (string * string)) (t : Table) :
  Forall2 (fun r r' => same_credentials r r' /\ (id r <> uid -> r' = r))
          t (snd (updateUser uid payload t)).
Proof.
  assert (Hsame : Forall2 (fun r r' => same_credentials r r' /\ (id r <> uid -> r' = r)) t t)
    by (apply Forall2_diag; intros x _; split; [repeat split | auto]).
  unfold updateUser.
  destruct (getUserById uid t); [| exact Hsame].
  destruct (update_fields payload) as [|kv rest]; [exact Hsame |].
  cbn [snd]. apply update_by_id_Forall2. intros r _.
  destruct (id r =? uid) eqn:Hid.
  - split; [apply set_columns_credentials |].
    intro Hne. apply Z.eqb_eq in Hid. contradiction.
  - split; [repeat split | auto].
Qed.

Lemma find_by_id_some (t : Table) (u : User) :
  In u t -> exists first, find (fun r => id r =? id u) t = Some first.
Proof.
  induction t as [|h rest IH]; simpl; [contradiction |].
  intros [-> | Hin].
  - rewrite Z.eqb_refl. eauto.
  - destruct (id h =? id u); eauto.
Qed.

Lemma updateUserStatus_table (t : Table) (u : User) (new_status : string) :
  In u t ->
  snd (updateUserStatus (id u) new_status t)
  = update_by_id (id u) (set_columns [("status", new_status)]) t.
Proof.
  intro Hin. unfold updateUserStatus, updateUser, getUserById.
  destruct (find_by_id_some t u Hin) as [first ->]. reflexivity.
Qed.

(** X16: once [updateUserStatus] has given an account a status other than
    ["ACTIVE"], every login attempt for its email is answered 403, whatever the
    password and whether or not the account is locked, and changes nothing. *)
Theorem deactivated_account_cannot_login
    (e : string) (a : Attempt) (t : Table) (u : User) (new_status : string) :
  find_user e t = Some u ->
  new_status <> "ACTIVE" ->
  serve' e a (snd (updateUserStatus (id u) new_status t))
  = (Failure 403 inactiveMsg, snd (updateUserStatus (id u) new_status t)).
Proof.
  intros H Hne.
  destruct (find_user_In e t u H) as [Hin _].
  rewrite (updateUserStatus_table t u new_status Hin).
  apply (serve_inactive e a _ (set_columns [("status", new_status)] u)).
  - apply find_user_update; [| exact H]. intro x. reflexivity.
  - simpl. now apply String.eqb_neq.
Qed.

(** X17: deactivating an ACTIVE account and activating it again gives back
    the table exactly as it was (ids being unique): the failure counter and
    the lock are neither cleared nor extended by the round trip. *)
Theorem reactivation_restores_account (t : Table) (u : User) :
  In u t ->
  NoDup (map id t) ->
  status u = "ACTIVE" ->
  snd (updateUserStatus (id u) "ACTIVE"
         (snd (updateUserStatus (id u) "INACTIVE" t)))
  = t.
Proof.
  intros Hin Hnd Hs.
  rewrite (updateUserStatus_table t u "INACTIVE" Hin).
  set (off := set_columns [("status", "INACTIVE")]).
  assert (Hin' : In (off u) (update_by_id (id u) off t)).
  { unfold update_by_id. apply in_map_iff. exists u.
    rewrite Z.eqb_refl. auto. }
  change (id u) with (id (off u)) at 1.
  rewrite (updateUserStatus_table _ (off u) "ACTIVE" Hin').
  unfold update_by_id. rewrite map_map.
  rewrite <- (map_id t) at 2. apply map_ext_in.
  intros r Hr. simpl.
  destruct (id r =? id u) eqn:Hid.
  - apply Z.eqb_eq in Hid.
    rewrite (unique_id_row t r u Hnd Hr Hin Hid). simpl.
    rewrite Z.eqb_refl. destruct u. simpl in *. now subst.
  - now rewrite Hid.
Qed.

Lemma unique_email_row (t : Table) (r u : User) :
  NoDup (map email t) -> In r t -> In u t -> email r = email u -> r = u.
Proof.
  induction t as [|h rest IH]; simpl; intros Hnd Hr Hu He; [contradiction |].
  inversion Hnd as [|? ? Hnotin Hnd']; subst.
  destruct Hr as [-> | Hr], Hu as [-> | Hu]; auto.
  - exfalso. apply Hnotin. rewrite He. now apply in_map.
  - exfalso. apply Hnotin. rewrite <- He. now apply in_map.
Qed.

Lemma find_user_unique (e : string) (t : Table) (x : User) :
  In x t -> email x = e ->
  (forall y, In y t -> email y = e -> y = x) ->
  find_user e t = Some x.
Proof.
  unfold find_user. induction t as [|h rest IH]; simpl; [contradiction |].
  intros Hin He Huniq.
  destruct (String.eqb (email h) e) eqn:Hh.
  - apply String.eqb_eq in Hh. rewrite (Huniq h); auto.
  - destruct Hin as [-> | Hin].
    + apply String.eqb_neq in Hh. contradiction.
    + apply IH; auto.
Qed.

Lemma updateUser_table (t : Table) (u : User) (payload : list (string * string)) :
  In u t ->
  update_fields payload <> [] ->
  snd (updateUser (id u) payload t)
  = update_by_id (id u) (set_columns (update_fields payload)) t.
Proof.
  intros Hin Hne. unfold updateUser, getUserById.
  destruct (find_by_id_some t u Hin) as [first ->].
  destruct (update_fields payload); [now elim Hne | reflexivity].
Qed.

(** X23: giving an account a new email with [updateUser] moves its login:
    the old email is unknown from then on (401, nothing written), and the new
    one selects the same account, with the id, password hash, failure counter
    and lock it had.  (Ids and emails are unique in the table and the new
    email was free.) *)
Theorem email_change_moves_login
    (e e' : string) (a : Attempt) (payload : list (string * string))
    (t : Table) (u : User) :
  find_user e t = Some u ->
  NoDup (map id t) ->
  NoDup (map email t) ->
  ~ In e' (map email t) ->
  payload_get payload "email" = Some e' ->
  serve' e a (snd (updateUser (id u) payload t))
  = (Failure 401 invalidMsg, snd (updateUser (id u) payload t))
  /\ exists u',
       find_user e' (snd (updateUser (id u) payload t)) = Some u'
       /\ same_credentials u u'
       /\ email u' = e'.
Proof.
  intros H Hids Hemails Hfree Hpay.
  destruct (find_user_In e t u H) as [Hin He].
  assert (Hne : update_fields payload <> []).
  { unfold update_fields. simpl. rewrite Hpay.
    destruct (payload_get payload "name"); discriminate. }
  rewrite (updateUser_table t u payload Hin Hne).
  set (f := set_columns (update_fields payload)).
  assert (Hf : forall r, email (f r) = e').
  { intro r. unfold f. rewrite set_columns_update_fields. simpl.
    unfold chosen. now rewrite Hpay. }
  assert (Hold : In e (map email t)) by (rewrite <- He; now apply in_map).
  split.
  - apply serve_unknown. apply find_user_none_iff. intro Hin'.
    apply in_map_iff in Hin'. destruct Hin' as (r' & Hr'e & Hr').
    unfold update_by_id in Hr'. apply in_map_iff in Hr'.
    destruct Hr' as (r & <- & Hr).
    destruct (id r =? id u) eqn:Hid.
    + rewrite Hf in Hr'e. subst e'. contradiction.
    + assert (r = u) by (apply (unique_email_row t); auto; congruence).
      subst r. rewrite Z.eqb_refl in Hid. discriminate.
  - exists (f u). split; [| split; [apply set_columns_credentials | apply Hf]].
    apply find_user_unique.
    + unfold update_by_id. apply in_map_iff. exists u.
      rewrite Z.eqb_refl. auto.
    + apply Hf.
    + intros y Hy Hye. unfold update_by_id in Hy. apply in_map_iff in Hy.
      destruct Hy as (r & <- & Hr).
      destruct (id r =? id u) eqn:Hid.
      * apply Z.eqb_eq in Hid.
        now rewrite (unique_id_row t r u Hids Hr Hin Hid).
      * elim Hfree. rewrite <- Hye. now apply in_map.
Qed.

Local Abbreviation post_user' :=
  (post_user env jwt_verify bcrypt_hash default_failed_attempts default_locked_until).
Local Abbreviation put_user' := (put_user env jwt_verify).
Local Abbreviation patch_user_status' := (patch_user_status env jwt_verify).

(** X18: the routes that create, edit and change the status of users write
    to the table only for a request whose bearer token verifies with the
    profile ["ADMIN"]; any other request is answered 401 or 403 and leaves the
    table as it was. *)
Theorem only_admins_write
    (h : option string) (now : Z) (uid insertId : Z) (t : Table)
    (new_user : option NewUser) (payload : option (list (string * string)))
    (new_status : option string) :
  (exists rest claims,
     h = Some (String.append "Bearer " rest)
     /\ jwt_verify (trim rest) (env_JWT_SECRET env) now = Some claims
     /\ js_get claims "profile" = JStr "ADMIN")
  \/ (In (res_status (fst (post_user' h now new_user insertId t))) [401; 403]
      /\ snd (post_user' h now new_user insertId t) = t
      /\ In (res_status (fst (put_user' h now uid payload t))) [401; 403]
      /\ snd (put_user' h now uid payload t) = t
      /\ In (res_status (fst (patch_user_status' h now uid new_status t))) [401; 403]
      /\ snd (patch_user_status' h now uid new_status t) = t).
Proof.
  unfold post_user, put_user, patch_user_status.
  destruct (admin_guard_cases h now)
    as [(Hg & r0 & Hr0 & Hst) | [(rest & claims & Hh & Hv & Hna & Hg)
                                | (rest & claims & Hh & Hv & Hadm & Hg)]].
  - right. rewrite Hg, Hr0. simpl. rewrite Hst. simpl.
    repeat split; auto.
  - right. rewrite Hg. simpl. repeat split; auto.
  - left. eauto.
Qed.

(** ** [validateEmail] *)

Lemma matches_end (s : JsString) : matches [] s = true <-> s = [].
Proof. destruct s; simpl; split; congruence. Qed.

Lemma matches_lit (c : N) (more : list Piece) (s : JsString) :
  matches (Lit c :: more) s = true
  <-> exists s', s = c :: s' /\ matches more s' = true.
Proof.
  destruct s as [|x s']; simpl.
  - split; [discriminate | intros (s0 & H & _); discriminate].
  - split.
    + intro H. apply andb_prop in H. destruct H as [Hx Hm].
      apply N.eqb_eq in Hx. subst x. eauto.
    + intros (s0 & H & Hm). injection H as -> ->.
      now rewrite N.eqb_refl.
Qed.

Lemma matches_class_step (class : N -> bool) (more : list Piece)
    (x : N) (s : JsString) :
  matches (OneOrMore class :: more) (x :: s)
  = class x && (matches more s || matches (OneOrMore class :: more) s).
Proof. reflexivity. Qed.

Lemma matches_class (class : N -> bool) (more : list Piece) (s : JsString) :
  matches (OneOrMore class :: more) s = true
  <-> exists pre post,
        s = pre ++ post /\ pre <> [] /\ forallb class pre = true
        /\ matches more post = true.
Proof.
  induction s as [|x s IH].
  - split; [discriminate |].
    intros (pre & post & H & Hne & _). destruct pre; [now elim Hne | discriminate].
  - rewrite matches_class_step. split.
    + intro H. apply andb_prop in H. destruct H as [Hx Hrest].
      apply orb_prop in Hrest. destruct Hrest as [Hm | Hgo].
      * exists [x], s. simpl. rewrite Hx. repeat split; auto. discriminate.
      * apply IH in Hgo. destruct Hgo as (pre & post & -> & _ & Hall & Hm).
        exists (x :: pre), post. simpl. rewrite Hx, Hall.
        repeat split; auto. discriminate.
    + intros (pre & post & H & Hne & Hall & Hm).
      destruct pre as [|p pre]; [now elim Hne |].
      simpl in H, Hall. injection H as -> ->.
      apply andb_prop in Hall. destruct Hall as [Hp Hall]. rewrite Hp. simpl.
      destruct pre as [|q pre].
      * simpl. now rewrite Hm.
      * apply orb_true_intro. right. apply IH.
        exists (q :: pre), post. repeat split; auto. discriminate.
Qed.

(** The parts of an accepted address. *)
Lemma validateEmail_parts (s : JsString) :
  validateEmail s = true ->
  exists local domain rest,
    trim16 s = local ++ [64%N] ++ domain ++ [46%N] ++ rest
    /\ local <> [] /\ domain <> [] /\ rest <> []
    /\ forallb not_space_or_at local = true
    /\ forallb not_space_or_at domain = true
    /\ forallb not_space_or_at rest = true.
Proof.
  unfold validateEmail, email_pattern. rewrite matches_class.
  intros (local & p1 & Hs & Hl & Hlall & Hm).
  apply matches_lit in Hm. destruct Hm as (p2 & -> & Hm).
  apply matches_class in Hm. destruct Hm as (domain & p3 & -> & Hd & Hdall & Hm).
  apply matches_lit in Hm. destruct Hm as (p4 & -> & Hm).
  apply matches_class in Hm. destruct Hm as (rest & p5 & -> & Hr & Hrall & Hm).
  apply matches_end in Hm. subst p5. rewrite app_nil_r in Hs.
  exists local, domain, rest. repeat split; auto.
Qed.

(** X19: [validateEmail] accepts exactly the strings that, once trimmed,
    read [local @ domain . rest] with the three parts non-empty and free of
    white space and of [@] (the parts may themselves contain dots). *)
Theorem validateEmail_accepts (s : JsString) :
  validateEmail s = true
  <-> exists local domain rest,
        trim16 s = local ++ [64%N] ++ domain ++ [46%N] ++ rest
        /\ local <> [] /\ domain <> [] /\ rest <> []
        /\ forallb not_space_or_at local = true
        /\ forallb not_space_or_at domain = true
        /\ forallb not_space_or_at rest = true.
Proof.
  split; [apply validateEmail_parts |].
  unfold validateEmail, email_pattern.
  intros (local & domain & rest & Hs & Hl & Hd & Hr & Hlall & Hdall & Hrall).
  apply matches_class.
  exists local, ([64%N] ++ domain ++ [46%N] ++ rest).
  split; [exact Hs |]. split; [exact Hl |]. split; [exact Hlall |].
  apply matches_lit. eexists. split; [reflexivity |].
  apply matches_class. exists domain, ([46%N] ++ rest).
  split; [reflexivity |]. split; [exact Hd |]. split; [exact Hdall |].
  apply matches_lit. eexists. split; [reflexivity |].
  apply matches_class. exists rest, [].
  split; [now rewrite app_nil_r |]. split; [exact Hr |]. split; [exact Hrall |].
  reflexivity.
Qed.

Lemma clean_no_at (l : JsString) :
  forallb not_space_or_at l = true ->
  count_occ N.eq_dec l 64%N = 0%nat /\ forallb (fun c => negb (is_space16 c)) l = true.
Proof.
  induction l as [|x l IH]; simpl; intro H; [split; reflexivity |].
  apply andb_prop in H. destruct H as [Hx Hl].
  unfold not_space_or_at in Hx. apply andb_prop in Hx. destruct Hx as [Hsp Hat].
  destruct (IH Hl) as [Hc Hs]. rewrite Hsp, Hs.
  destruct (N.eq_dec x 64) as [-> | _]; [discriminate | auto].
Qed.

(** X20: an address [validateEmail] accepts has, once trimmed, exactly one
    [@] and no white space anywhere. *)
Theorem validateEmail_one_at (s : JsString) :
  validateEmail s = true ->
  count_occ N.eq_dec (trim16 s) 64%N = 1%nat
  /\ forallb (fun c => negb (is_space16 c)) (trim16 s) = true.
Proof.
  intro H. apply validateEmail_parts in H.
  destruct H as (local & domain & rest & -> & _ & _ & _ & Hl & Hd & Hr).
  destruct (clean_no_at local Hl) as [Cl Sl].
  destruct (clean_no_at domain Hd) as [Cd Sd].
  destruct (clean_no_at rest Hr) as [Cr Sr].
  split.
  - rewrite !count_occ_app, Cl, Cd, Cr. reflexivity.
  - rewrite !forallb_app, Sl, Sd, Sr. reflexivity.
Qed.

End Properties.

(** ** The theorems at work on the sample data *)

Lemma locked_login_is_inert_witness :
  exists w',
    run toy_compare toy_sign (loginWithLock default_env "a@x.com" "secret1")
        (mkWorld [alice_locked] 1000 [])
    = (Failure 423 lockedMsg, w')
    /\ db w' = [alice_locked]
    /\ trace w' = [] ++ [Called (SelectUserByEmail "a@x.com"); Called DateNow]
    /\ filter is_compare (trace w') = filter is_compare []
    /\ filter is_update (trace w') = filter is_update [].
Proof.
  apply (locked_login_is_inert default_env toy_compare toy_sign
           "a@x.com" "secret1" (mkWorld [alice_locked] 1000 [])
           alice_locked 400000);
    [reflexivity | reflexivity | reflexivity | simpl; lia].
Defined.

Lemma inactive_login_rejected_witness :
  exists w',
    run toy_compare toy_sign (loginWithLock default_env "b@x.com" "secret2")
        (mkWorld sample_table 1000 [])
    = (Failure 403 inactiveMsg, w')
    /\ db w' = sample_table
    /\ trace w' = [] ++ [Called (SelectUserByEmail "b@x.com")].
Proof.
  apply (inactive_login_rejected default_env toy_compare toy_sign
           "b@x.com" "secret2" (mkWorld sample_table 1000 []) bob_inactive);
    [reflexivity | discriminate].
Defined.

Lemma unknown_and_wrong_indistinguishable_witness :
  fst (run toy_compare toy_sign
           (post_login default_env (Some ("a@x.com", "bad001")))
           (mkWorld sample_table 1000 []))
  = fst (run toy_compare toy_sign
             (post_login default_env (Some ("nobody@x.com", "bad001")))
             (mkWorld sample_table 1000 [])).
Proof.
  apply (unknown_and_wrong_indistinguishable default_env toy_compare toy_sign
           "nobody@x.com" "bad001" "a@x.com" "bad001"
           (mkWorld sample_table 1000 []) (mkWorld sample_table 1000 []) alice);
    [reflexivity | reflexivity | reflexivity | reflexivity | reflexivity
     | unfold newFails_of, MAX; simpl; lia].
Defined.

(** With the threshold at 5 the message still names three attempts. *)
Lemma lock_message_is_fixed_witness :
  MAX (env_max 5) = 5
  /\ fst (run toy_compare toy_sign (loginWithLock (env_max 5) "a@x.com" "bad001")
              (mkWorld [alice_four_fails] 1000 []))
     = Failure 423 "3 tentativas incorretas. Usuário bloqueado.".
Proof.
  split; [reflexivity |].
  apply (lock_message_is_fixed (env_max 5) toy_compare toy_sign
           "a@x.com" "bad001" (mkWorld [alice_four_fails] 1000 [])
           alice_four_fails);
    [reflexivity | reflexivity | reflexivity | reflexivity
     | unfold newFails_of, MAX; simpl; lia].
Defined.


Lemma lock_after_max_failures_witness :
  exists t',
    serve_all default_env toy_compare toy_sign "a@x.com"
              ([mkAttempt 1000 "bad001"; mkAttempt 2000 "bad002"]
                 ++ [mkAttempt 3000 "bad003"])
              sample_table
    = (repeat (Failure 401 invalidMsg) 2 ++ [Failure 423 justLockedMsg], t')
    /\ (forall a : Attempt,
          at_time a < 3000 + LOCK_MINUTES default_env * 60 * 1000 ->
          serve default_env toy_compare toy_sign "a@x.com" a t'
          = (Failure 423 lockedMsg, t'))
    /\ (forall a : Attempt,
          3000 + LOCK_MINUTES default_env * 60 * 1000 <= at_time a ->
          toy_compare (at_password a) (password_hash alice) = true ->
          ok_of (fst (serve default_env toy_compare toy_sign "a@x.com" a t'))
          = true).
Proof.
  apply (lock_after_max_failures default_env toy_compare toy_sign "a@x.com"
           [mkAttempt 1000 "bad001"; mkAttempt 2000 "bad002"]
           (mkAttempt 3000 "bad003") sample_table alice);
    [reflexivity | reflexivity | reflexivity | reflexivity
     | repeat constructor | reflexivity | unfold MAX; simpl; lia].
Defined.

(** C1, as stated, fails for a threshold above the cap of the counter: with
    [MAX_LOGIN_ATTEMPTS] at 256, 256 wrong passwords in a row are all answered
    401, the counter stops at 255, no lock is set, and the right password
    that follows logs in. *)
Lemma threshold_above_cap_never_locks :
  let attempts := repeat (mkAttempt 1000 "bad001") 256 in
  let after :=
    serve_all (env_max 256) toy_compare toy_sign "a@x.com" attempts sample_table in
  MAX (env_max 256) = 256
  /\ Z.of_nat (List.length attempts) = MAX (env_max 256)
  /\ Forall (wrong_for toy_compare alice) attempts
  /\ fst after = repeat (Failure 401 invalidMsg) 256
  /\ option_map failed_attempts (find_user "a@x.com" (snd after))
     = Some (Some 255)
  /\ option_map locked_until (find_user "a@x.com" (snd after)) = Some None
  /\ fst (serve (env_max 256) toy_compare toy_sign "a@x.com"
                (mkAttempt 1000 "secret1") (snd after))
     = Success 200 "k:1:ADMIN" (public_user alice).
Proof.
  cbv zeta. split; [reflexivity |]. split; [reflexivity |].
  split; [apply Forall_forall; intros a Ha; apply repeat_spec in Ha;
          subst a; reflexivity |].
  vm_compute. repeat split.
Qed.

Lemma sequential_failures_counted_witness :
  exists rs t' u',
    serve_all default_env toy_compare toy_sign "a@x.com"
              [mkAttempt 1000 "bad001"; mkAttempt 1000 "bad002";
               mkAttempt 1000 "bad003"]
              sample_table
    = (rs, t')
    /\ find_user "a@x.com" t' = Some u'
    /\ js_or0 (failed_attempts u') = js_or0 (failed_attempts alice) + 3
    /\ (locked_until u' <> None
        <-> [mkAttempt 1000 "bad001"; mkAttempt 1000 "bad002";
             mkAttempt 1000 "bad003"] <> []
            /\ js_or0 (failed_attempts alice) + 3 = MAX default_env).
Proof.
  apply (sequential_failures_counted default_env toy_compare toy_sign "a@x.com"
           [mkAttempt 1000 "bad001"; mkAttempt 1000 "bad002";
            mkAttempt 1000 "bad003"]
           sample_table alice);
    [reflexivity | reflexivity | reflexivity | repeat constructor
     | unfold MAX; simpl; lia | unfold MAX; simpl; lia].
Defined.

(** C7, as stated, fails: three wrong passwords whose requests overlap (each
    has read the row before any has written it) all store the counter 1 and
    are all answered 401, and the account is not locked although the
    threshold is 3.  Served one after another the same three attempts count to
    3 and lock the account. *)
Lemma concurrent_failures_lost :
  let requests :=
    [loginWithLock default_env "a@x.com" "bad001";
     loginWithLock default_env "a@x.com" "bad002";
     loginWithLock default_env "a@x.com" "bad003"] in
  let overlapping :=
    [Advance 0; Advance 1; Advance 2;
     Advance 0; Advance 1; Advance 2;
     Advance 0; Advance 1; Advance 2] in
  let after :=
    exec toy_compare toy_sign overlapping requests (mkWorld sample_table 1000 []) in
  let serial :=
    serve_all default_env toy_compare toy_sign "a@x.com"
              [mkAttempt 1000 "bad001"; mkAttempt 1000 "bad002";
               mkAttempt 1000 "bad003"] sample_table in
  MAX default_env = 3
  /\ map answer (fst after)
     = [Some (Failure 401 invalidMsg); Some (Failure 401 invalidMsg);
        Some (Failure 401 invalidMsg)]
  /\ filter is_update (trace (snd after))
     = [Called (UpdateFails 1 1); Called (UpdateFails 1 1);
        Called (UpdateFails 1 1)]
  /\ option_map failed_attempts (find_user "a@x.com" (db (snd after)))
     = Some (Some 1)
  /\ option_map locked_until (find_user "a@x.com" (db (snd after)))
     = Some None
  /\ option_map failed_attempts (find_user "a@x.com" (snd serial))
     = Some (Some 3)
  /\ option_map locked_until (find_user "a@x.com" (snd serial))
     = Some (Some 301000).
Proof.
  vm_compute. repeat split.
Qed.

Lemma relock_after_expiry_witness :
  exists u1 f t2 u2,
    find_user "a@x.com"
      (snd (serve_all default_env toy_compare toy_sign "a@x.com"
              [mkAttempt 2000 "secret1"; mkAttempt 3000 "bad002"]
              (snd (serve default_env toy_compare toy_sign "a@x.com"
                          (mkAttempt 1000 "bad001") [alice_two_fails]))))
    = Some u1
    /\ failed_attempts u1 = Some f
    /\ MAX default_env <= f
    /\ locked_until u1 <> None
    /\ serve default_env toy_compare toy_sign "a@x.com" (mkAttempt 500000 "bad003")
         (snd (serve_all default_env toy_compare toy_sign "a@x.com"
                 [mkAttempt 2000 "secret1"; mkAttempt 3000 "bad002"]
                 (snd (serve default_env toy_compare toy_sign "a@x.com"
                             (mkAttempt 1000 "bad001") [alice_two_fails]))))
       = (Failure 423 justLockedMsg, t2)
    /\ find_user "a@x.com" t2 = Some u2
    /\ failed_attempts u2 = Some (Z.min (f + 1) 255)
    /\ locked_until u2
       = Some (500000 + LOCK_MINUTES default_env * 60 * 1000).
Proof.
  apply (relock_after_expiry default_env toy_compare toy_sign "a@x.com"
           (mkAttempt 1000 "bad001")
           [mkAttempt 2000 "secret1"; mkAttempt 3000 "bad002"]
           (mkAttempt 500000 "bad003") [alice_two_fails] alice_two_fails);
    [reflexivity | reflexivity | reflexivity
     | vm_compute; repeat constructor
     | vm_compute; intros u1 H; injection H as <-; reflexivity
     | reflexivity].
Defined.

Lemma token_claims_witness :
  exists u payload expiresIn,
    find_user "a@x.com" sample_table = Some u
    /\ payload = JObj [("sub", JStr (js_String (id u)));
                       ("profile", JStr (profile u))]
    /\ expiresIn = "1h"
    /\ signed_payloads
         (trace (snd (run toy_compare toy_sign
                          (loginWithLock default_env "a@x.com" "secret1")
                          (mkWorld sample_table 1000 []))))
       = [(payload, expiresIn)]
    /\ get_me default_env toy_verify (Some "Bearer k:1:ADMIN") 2000
       = mkResponse 200
           (JObj [("ok", JBool true);
                  ("auth", JObj [("userId", JStr "1");
                                 ("profile", JStr "ADMIN")])]).
Proof.
  destruct (token_claims default_env toy_compare toy_sign toy_verify
              "a@x.com" "secret1" (mkWorld sample_table 1000 [])
              (snd (run toy_compare toy_sign
                        (loginWithLock default_env "a@x.com" "secret1")
                        (mkWorld sample_table 1000 [])))
              200 "k:1:ADMIN" (public_user alice) eq_refl)
    as (u & payload & expiresIn & Hu & _ & _ & Hp & He & _ & _ & Hs & _ & _ & Hme).
  subst payload expiresIn.
  exists u. eexists _, _.
  split; [exact Hu |]. split; [reflexivity |]. split; [reflexivity |].
  split; [exact Hs |].
  injection Hu as <-.
  exact (Hme 2000 _ eq_refl eq_refl eq_refl).
Defined.

(** C8, as stated, fails: the token of a successful login has the claims
    [sub] and [profile] and none called role, and [GET /auth/me] answers
    [{ ok: true, auth: { userId, profile } }], not [{ userId, role }]. *)
Lemma token_has_profile_not_role :
  let after :=
    run toy_compare toy_sign (loginWithLock default_env "a@x.com" "secret1")
        (mkWorld sample_table 1000 []) in
  let me := get_me default_env toy_verify (Some "Bearer k:1:ADMIN") 2000 in
  fst after = Success 200 "k:1:ADMIN" (public_user alice)
  /\ signed_payloads (trace (snd after))
     = [(JObj [("sub", JStr "1"); ("profile", JStr "ADMIN")], "1h")]
  /\ map (fun p => js_get (fst p) "role") (signed_payloads (trace (snd after)))
     = [JUndefined]
  /\ me = mkResponse 200
            (JObj [("ok", JBool true);
                   ("auth", JObj [("userId", JStr "1"); ("profile", JStr "ADMIN")])])
  /\ js_get (js_get (res_body me) "auth") "role" = JUndefined
  /\ res_body me <> JObj [("userId", JStr "1"); ("role", JStr "ADMIN")].
Proof.
  vm_compute. repeat split. discriminate.
Qed.

(** At the very millisecond [locked_until] names the gate is open; one
    millisecond earlier it is closed. *)
Lemma lock_predicate_strict_witness :
  fst (run toy_compare toy_sign (lockGate alice_locked) (mkWorld [] 400000 []))
  = false
  /\ fst (run toy_compare toy_sign (lockGate alice_locked) (mkWorld [] 399999 []))
     = true.
Proof.
  split.
  - destruct (lock_predicate_strict toy_compare toy_sign alice_locked
                (mkWorld [] 400000 [])) as (Hgate & _).
    rewrite Hgate. reflexivity.
  - destruct (lock_predicate_strict toy_compare toy_sign alice_locked
                (mkWorld [] 399999 [])) as (Hgate & _).
    rewrite Hgate. reflexivity.
Defined.

(** ** The further properties at work on the sample data *)

Lemma success_resets_counters_witness :
  exists tok w' u',
    run toy_compare toy_sign (loginWithLock default_env "c@x.com" "secret3")
        (mkWorld three_users 1000 [])
    = (Success 200 tok (public_user carol), w')
    /\ find_user "c@x.com" (db w') = Some u'
    /\ same_account carol u'
    /\ js_or0 (failed_attempts u') = 0
    /\ locked_until u' = None
    /\ (js_or0 (failed_attempts carol) = 0 -> locked_until carol = None ->
        db w' = three_users
        /\ filter is_update (trace w') = filter is_update []).
Proof.
  apply (success_resets_counters default_env toy_compare toy_sign
           "c@x.com" "secret3" (mkWorld three_users 1000 []) carol);
    [reflexivity | reflexivity | reflexivity | reflexivity | simpl; lia].
Defined.

Lemma full_sequence_after_success_witness :
  exists tok t0 t',
    serve default_env toy_compare toy_sign "c@x.com"
          (mkAttempt 1000 "secret3") three_users
    = (Success 200 tok (public_user carol), t0)
    /\ serve_all default_env toy_compare toy_sign "c@x.com"
         ([mkAttempt 2000 "bad001"; mkAttempt 3000 "bad002"]
            ++ [mkAttempt 4000 "bad003"]) t0
       = (repeat (Failure 401 invalidMsg) 2 ++ [Failure 423 justLockedMsg], t').
Proof.
  apply (full_sequence_after_success default_env toy_compare toy_sign "c@x.com"
           (mkAttempt 1000 "secret3")
           [mkAttempt 2000 "bad001"; mkAttempt 3000 "bad002"]
           (mkAttempt 4000 "bad003") three_users carol);
    [reflexivity | reflexivity | reflexivity | reflexivity | simpl; lia
     | repeat constructor | reflexivity | unfold MAX; simpl; lia].
Defined.

Lemma logins_of_two_accounts_commute_witness :
  snd (serve default_env toy_compare toy_sign "c@x.com" (mkAttempt 2000 "bad002")
         (snd (serve default_env toy_compare toy_sign "a@x.com"
                     (mkAttempt 1000 "bad001") three_users)))
  = snd (serve default_env toy_compare toy_sign "a@x.com" (mkAttempt 1000 "bad001")
           (snd (serve default_env toy_compare toy_sign "c@x.com"
                       (mkAttempt 2000 "bad002") three_users))).
Proof.
  apply (logins_of_two_accounts_commute default_env toy_compare toy_sign
           "a@x.com" "c@x.com" (mkAttempt 1000 "bad001") (mkAttempt 2000 "bad002")
           three_users alice carol);
    [reflexivity | reflexivity | simpl; lia].
Defined.

Lemma counters_stay_consistent_witness :
  Forall (counter_ok default_env)
    (snd (serve_each default_env toy_compare toy_sign
            [("a@x.com", mkAttempt 1000 "bad001");
             ("c@x.com", mkAttempt 1500 "bad002");
             ("c@x.com", mkAttempt 2000 "bad003");
             ("a@x.com", mkAttempt 2500 "secret1")]
            [alice; carol])).
Proof.
  apply (counters_stay_consistent default_env toy_compare toy_sign
           [("a@x.com", mkAttempt 1000 "bad001");
            ("c@x.com", mkAttempt 1500 "bad002");
            ("c@x.com", mkAttempt 2000 "bad003");
            ("a@x.com", mkAttempt 2500 "secret1")]
           [alice; carol]).
  - simpl. repeat constructor; simpl; intuition lia.
  - repeat constructor; simpl; try lia; try discriminate;
      try (intro H; now contradiction H).
Defined.

Lemma bearer_padding_ignored_witness :
  requireAuth default_env toy_verify (Some "Bearer   k:1:ADMIN  ") 2000
  = requireAuth default_env toy_verify (Some "Bearer k:1:ADMIN") 2000.
Proof.
  apply (bearer_padding_ignored default_env toy_verify "  " "k:1:ADMIN" "  " 2000);
    reflexivity.
Defined.

Lemma login_token_at_admin_guard_witness :
  exists u,
    find_user "a@x.com" sample_table = Some u
    /\ pu_profile (public_user alice) = profile u
    /\ ((exists auth,
           admin_guard default_env toy_verify (Some "Bearer k:1:ADMIN") 2000
           = Next auth)
        <-> profile u = "ADMIN")
    /\ (profile u <> "ADMIN" ->
        admin_guard default_env toy_verify (Some "Bearer k:1:ADMIN") 2000
        = Responded (mkResponse 403 (message_body "Acesso negado."))).
Proof.
  apply (login_token_at_admin_guard default_env toy_compare toy_sign toy_verify
           "a@x.com" "secret1" (mkWorld sample_table 1000 [])
           (snd (run toy_compare toy_sign
                     (loginWithLock default_env "a@x.com" "secret1")
                     (mkWorld sample_table 1000 [])))
           200 "k:1:ADMIN" (public_user alice) 2000
           (JObj [("sub", JStr "1"); ("profile", JStr "ADMIN");
                  ("iat", JNum 0); ("exp", JNum 3600)]));
    reflexivity.
Defined.

Lemma created_user_can_login_witness :
  fst (createUser toy_hash (Some 0) None dave_input 4 three_users)
  = SOk 201 (Some (mkUserView 4 "Dave" "d@x.com" "USER" "ACTIVE"))
  /\ exists tok,
       fst (serve default_env toy_compare toy_sign "d@x.com"
                  (mkAttempt 5000 "secret4")
                  (snd (createUser toy_hash (Some 0) None dave_input 4 three_users)))
       = Success 200 tok (mkPublicUser 4 "Dave" "d@x.com" "USER").
Proof.
  apply (created_user_can_login default_env toy_compare toy_sign toy_hash
           (Some 0) None dave_input 4 three_users (mkAttempt 5000 "secret4")).
  - simpl. intros [H | [H | [H | []]]]; discriminate.
  - simpl. intros [H | [H | [H | []]]]; discriminate.
  - reflexivity.
  - reflexivity.
  - reflexivity.
Defined.

Lemma deactivated_account_cannot_login_witness :
  serve default_env toy_compare toy_sign "a@x.com" (mkAttempt 1000 "secret1")
        (snd (updateUserStatus 1 "INACTIVE" three_users))
  = (Failure 403 inactiveMsg, snd (updateUserStatus 1 "INACTIVE" three_users)).
Proof.
  apply (deactivated_account_cannot_login default_env toy_compare toy_sign
           "a@x.com" (mkAttempt 1000 "secret1") three_users alice "INACTIVE");
    [reflexivity | discriminate].
Defined.

Lemma reactivation_restores_account_witness :
  snd (updateUserStatus 1 "ACTIVE" (snd (updateUserStatus 1 "INACTIVE" [alice_locked; carol])))
  = [alice_locked; carol].
Proof.
  apply (reactivation_restores_account [alice_locked; carol] alice_locked).
  - now left.
  - simpl. repeat constructor; simpl; intuition lia.
  - reflexivity.
Defined.

Lemma validateEmail_one_at_witness :
  count_occ N.eq_dec (trim16 padded_email) 64%N = 1%nat
  /\ forallb (fun c => negb (is_space16 c)) (trim16 padded_email) = true.
Proof.
  apply (validateEmail_one_at padded_email). reflexivity.
Defined.

Lemma attempts_during_lock_change_nothing_witness :
  serve_all default_env toy_compare toy_sign "a@x.com"
            [mkAttempt 1000 "bad001"; mkAttempt 2000 "secret1";
             mkAttempt 399999 "bad002"]
            [alice_locked]
  = (repeat (Failure 423 lockedMsg) 3, [alice_locked]).
Proof.
  apply (attempts_during_lock_change_nothing default_env toy_compare toy_sign
           "a@x.com"
           [mkAttempt 1000 "bad001"; mkAttempt 2000 "secret1";
            mkAttempt 399999 "bad002"]
           [alice_locked] alice_locked 400000);
    [reflexivity | reflexivity | reflexivity | repeat constructor; simpl; lia].
Defined.

Lemma email_change_moves_login_witness :
  serve default_env toy_compare toy_sign "c@x.com" (mkAttempt 1000 "secret3")
        (snd (updateUser 3 [("email", "carol@x.com")] three_users))
  = (Failure 401 invalidMsg,
     snd (updateUser 3 [("email", "carol@x.com")] three_users))
  /\ exists u',
       find_user "carol@x.com"
                 (snd (updateUser 3 [("email", "carol@x.com")] three_users))
       = Some u'
       /\ same_credentials carol u'
       /\ email u' = "carol@x.com".
Proof.
  apply (email_change_moves_login default_env toy_compare toy_sign
           "c@x.com" "carol@x.com" (mkAttempt 1000 "secret3")
           [("email", "carol@x.com")] three_users carol).
  - reflexivity.
  - simpl. repeat constructor; simpl;
      try (intros [H | [H | []]]; discriminate);
      try (intros [H | []]; discriminate); auto.
  - simpl. repeat constructor; simpl;
      try (intros [H | [H | []]]; discriminate);
      try (intros [H | []]; discriminate); auto.
  - simpl. intros [H | [H | [H | []]]]; discriminate.
  - reflexivity.
Defined.
